(** * The [cm] build script (bin/cm.js): package registry, module resolution,
      compile stage, bundle stage, dev server and command dispatch.

    The script is embedded shallowly.  Pure helpers are Rocq functions;
    code that can throw returns [Res]; code that prints, exits or touches
    the file system lives in the [Proc] monad, a state monad over the
    list of effects performed so far whose outcomes are normal return,
    [process.exit] and a thrown exception.  Everything the script gets
    from Node.js or from a library (path, fs, the TypeScript compiler,
    rollup, the HTTP helpers) is a field of a host record. *)

From Stdlib Require Import ZArith Ascii.
From stdpp Require Import base strings list gmap pretty.

Open Scope string_scope.
Open Scope list_scope.

(** ** JavaScript values: truthiness, strings, regular expressions *)

(** A string or [null]/[undefined] used as a condition. *)
Definition truthy (v : option string) : bool :=
  match v with
  | Some s => negb (String.eqb s "")
  | None => false
  end.

(** [files.includes(x)]. *)
Definition includes (x : string) (l : list string) : bool :=
  bool_decide (x ∈ l).

(** The class [\w] of a regular expression without the unicode flag. *)
Definition word_char (c : ascii) : bool :=
  let n := nat_of_ascii c in
  (Nat.leb 65 n && Nat.leb n 90) || (Nat.leb 97 n && Nat.leb n 122)
  || (Nat.leb 48 n && Nat.leb n 57) || Nat.eqb n 95.

Fixpoint all_word (s : string) : bool :=
  match s with
  | EmptyString => true
  | String c r => word_char c && all_word r
  end.

(** [strip_prefix p s] is the rest of [s] after the literal prefix [p]. *)
Fixpoint strip_prefix (p s : string) : option string :=
  match p, s with
  | EmptyString, _ => Some s
  | String a p', String b s' =>
      if Ascii.eqb a b then strip_prefix p' s' else None
  | String _ _, EmptyString => None
  end.

(** [/^[^.]+\.ts$/.test(f)]: [tail_is_dot_ts] reads the rest of the stem,
    then wants exactly [".ts"]. *)
Fixpoint tail_is_dot_ts (s : string) : bool :=
  match s with
  | EmptyString => false
  | String c r =>
      if Ascii.eqb c "." then String.eqb r "ts" else tail_is_dot_ts r
  end.

Definition is_source_file (f : string) : bool :=
  match f with
  | EmptyString => false
  | String c r => negb (Ascii.eqb c ".") && tail_is_dot_ts r
  end.

(** [name.replace(/^(theme-|lang-)/, "")]. *)
Definition strip_kind (nm : string) : string :=
  match strip_prefix "theme-" nm with
  | Some r => r
  | None =>
      match strip_prefix "lang-" nm with
      | Some r => r
      | None => nm
      end
  end.

(** [s.replace(/\.ts$/, ext)]. *)
Fixpoint replace_ts (ext s : string) : string :=
  match s with
  | EmptyString => EmptyString
  | String c r => if String.eqb s ".ts" then ext else String c (replace_ts ext r)
  end.

(** [/^@codemirror\/(\w+)$/.exec(name)], giving the captured group. *)
Definition sibling_import (specifier : string) : option string :=
  match strip_prefix "@codemirror/" specifier with
  | Some id =>
      if negb (String.eqb id "") && all_word id then Some id else None
  | None => None
  end.

(** [s] starts with the character [c]. *)
Definition first_is (c : ascii) (s : string) : bool :=
  match s with
  | String c' _ => Ascii.eqb c' c
  | EmptyString => false
  end.

(** [/^(\.?\/|\w:)/.test(id)]: a slash, or a dot and a slash, or a word
    character and a colon. *)
Definition path_like (id : string) : bool :=
  match id with
  | String c r =>
      Ascii.eqb c "/"
      || (Ascii.eqb c "." && first_is "/" r)
      || (word_char c && first_is ":" r)
  | EmptyString => false
  end.

(** ** Exceptions *)

Inductive JsError : Type :=
  | Error (msg : string)
  | TypeError (msg : string)
  | ReferenceError (msg : string)
  | SystemError (code : string) (path : string).

(** The result of code that may throw. *)
Inductive Res (A : Type) : Type :=
  | Ok (a : A)
  | Raise (e : JsError).
Arguments Ok {A} a.
Arguments Raise {A} e.

#[global] Instance Res_ret : MRet Res := @Ok.
#[global] Instance Res_bind : MBind Res :=
  λ A B f m, match m with Ok a => f a | Raise e => Raise e end.

(** ** The Node.js host *)

Record Node : Type := {
  __dirname : string;
  path_join : list string → string;
  path_dirname : string → string;
  readdirSync : string → Res (list string);
  existsSync : string → bool;
  (** the failure, if any, of [fs.promises.mkdir] and of
      [fs.promises.writeFile] at a path *)
  mkdir_error : string → option JsError;
  writeFile_error : string → option JsError;
  env : string → option string;
  argv : list string;
  (** [Date.now()] at the n-th reading of the clock *)
  Date_now : nat → Z;
  (** [(ms / 1000).toFixed(2)] *)
  seconds : Z → string
}.

(** ** The package registry *)

Record Pkg : Type := mkPkg {
  name : string;
  dir : string;
  main : option string
}.

Record Registry : Type := {
  packages : list Pkg;
  buildPackages : list Pkg;
  packageNames : gmap string Pkg
}.

Definition core_names : list string :=
  [ "state"; "text"; "view"; "commands"; "history"; "collab"; "gutter";
    "rangeset"; "language"; "language-data"; "fold"; "matchbrackets";
    "closebrackets"; "panel"; "tooltip"; "search"; "lint"; "highlight";
    "stream-parser"; "autocomplete"; "comment"; "rectangular-selection";
    "basic-setup" ].

Definition nonCore_names : list string :=
  [ "lang-javascript"; "lang-java"; "lang-json"; "lang-cpp"; "lang-python";
    "lang-css"; "lang-html"; "lang-sql"; "lang-rust"; "lang-xml";
    "lang-markdown"; "legacy-modes"; "theme-one-dark" ].

Section Registry.
Context (node : Node).

Definition root : string := path_join node [__dirname node; ".."].

(** The choice of the main script among the source files of a package. *)
Definition main_script (nm : string) (files : list string) : option string :=
  if Nat.eqb (length files) 1 then files !! 0%nat
  else if includes "index.ts" files then Some "index.ts"
  else if includes (strip_kind nm +:+ ".ts") files
       then Some (strip_kind nm +:+ ".ts")
  else None.

(** [new Pkg(name)] *)
Definition new_Pkg (nm : string) : Res Pkg :=
  let d := path_join node [root; nm] in
  if negb (String.eqb nm "legacy-modes") then
    entries ← readdirSync node (path_join node [d; "src"]);
    let files := List.filter is_source_file entries in
    match main_script nm files with
    | Some f =>
        if String.eqb f ""
        then Raise (Error ("Couldn't find a main script for " +:+ nm))
        else Ok {| name := nm; dir := d;
                   main := Some (path_join node [d; "src"; f]) |}
    | None => Raise (Error ("Couldn't find a main script for " +:+ nm))
    end
  else Ok {| name := nm; dir := d; main := None |}.

(** [for (let p of packages) packageNames[p.name] = p] *)
Definition index_by_name (pkgs : list Pkg) : gmap string Pkg :=
  foldl (λ m p, <[name p := p]> m) ∅ pkgs.

(** The module-level statements that build the registry. *)
Definition load_registry : Res Registry :=
  core ← mapM new_Pkg core_names;
  nonCore ← mapM new_Pkg nonCore_names;
  let packages := core ++ nonCore in
  Ok {| packages := packages;
        buildPackages := List.filter (λ p, truthy (main p)) packages;
        packageNames := index_by_name packages |}.
End Registry.

(** ** Effects *)

Inductive Level : Type := Log | Info | Warn | Err.

(** What [console] is given: a string or a caught exception. *)
Inductive Printed : Type :=
  | Text (s : string)
  | Thrown (e : JsError).

Record Request : Type := { method : string; url : string }.
Record Response : Type := { statusCode : nat; body : string }.

Inductive Event : Type :=
  | Console (l : Level) (v : Printed)
  | TsEmit (skipped : bool)
  | TsWatch (config : string)
  | Rollup (input file : string)
  | RollupWatch (input file : string)
  | CloseBundle (file : string)
  | Mkdir (d : string)
  | WriteFile (path content : string)
  | Listen (port : Z) (host : option string) (listener : Request → Response).

Record World : Type := { events : list Event; clock : nat }.

Inductive Outcome (A : Type) : Type :=
  | Ret (a : A)
  | Exit (status : nat)
  | Throw (e : JsError).
Arguments Ret {A} a.
Arguments Exit {A} status.
Arguments Throw {A} e.

Definition Proc (A : Type) : Type := World → Outcome A * World.

#[global] Instance Proc_ret : MRet Proc := λ A a w, (Ret a, w).
#[global] Instance Proc_bind : MBind Proc :=
  λ A B f m w,
    match m w with
    | (Ret a, w') => f a w'
    | (Exit s, w') => (Exit s, w')
    | (Throw e, w') => (Throw e, w')
    end.

Definition perform (e : Event) : Proc unit :=
  λ w, (Ret (), {| events := events w ++ [e]; clock := clock w |}).

(** [process.exit(status)] *)
Definition exit {A : Type} (status : nat) : Proc A := λ w, (Exit status, w).

Definition throw {A : Type} (e : JsError) : Proc A := λ w, (Throw e, w).

Definition lift {A : Type} (r : Res A) : Proc A :=
  match r with
  | Ok a => mret a
  | Raise e => throw e
  end.

(** [try { m } catch (e) { h(e) }], and [promise.catch(h)]. *)
Definition catch {A : Type} (m : Proc A) (h : JsError → Proc A) : Proc A :=
  λ w,
    match m w with
    | (Throw e, w') => h e w'
    | r => r
    end.

(** [for (let x of l) f(x)] *)
Fixpoint for_of {A : Type} (f : A → Proc unit) (l : list A) : Proc unit :=
  match l with
  | [] => mret ()
  | x :: r => f x ;; for_of f r
  end.

Definition console (l : Level) (v : Printed) : Proc unit := perform (Console l v).

(** [function error(err)] *)
Definition error (err : Printed) : Proc unit :=
  console Err err ;; exit 1.

(** ** The TypeScript compiler, as the script uses it *)

Definition CompilerOptions : Type := list (string * string).

Record Diagnostic : Type := {
  category : nat;
  diag_code : nat;
  messageText : string
}.

Record ResolvedModule : Type := {
  resolvedFileName : option string;
  isExternalLibraryImport : bool
}.

(** The type of [host.resolveModuleNames(names, parent, _, _, options)]. *)
Definition Resolver : Type :=
  list string → string → CompilerOptions → list (option ResolvedModule).

(** A compiler host: its file-system callbacks [sys], which is all the
    default resolution reads of it, and the resolution hook. *)
Record CompilerHost (Sys : Type) : Type := {
  sys : Sys;
  resolveModuleNames : option Resolver
}.
Arguments sys {Sys} _.
Arguments resolveModuleNames {Sys} _.

Record ParsedCommandLine : Type := {
  fileNames : list string;
  options : CompilerOptions
}.

Record EmitResult : Type := {
  emitSkipped : bool;
  diagnostics : list Diagnostic
}.

Record Program : Type := {
  emit : EmitResult;
  preEmitDiagnostics : list Diagnostic
}.

Record TypeScript : Type := {
  Sys : Type;
  getParsedCommandLineOfConfigFile : string → ParsedCommandLine;
  createCompilerHost : CompilerOptions → CompilerHost Sys;
  createProgram :
    list string → CompilerOptions → CompilerHost Sys → Program;
  (** [ts.resolveModuleName(name, parent, options, host).resolvedModule] *)
  resolveModuleName :
    string → string → CompilerOptions → Sys → option ResolvedModule;
  formatDiagnostic : Diagnostic → string
}.

(** ** Rollup, as the script uses it *)

Inductive Plugin : Type := lezer | dts.

Record OutputOptions : Type := {
  format : string;
  file : string;
  sourcemap : bool;
  externalLiveBindings : option bool
}.

Record Warning : Type := {
  code : option string;
  message : string
}.

Record RollupConfig : Type := {
  input : string;
  cfg_external : string → bool;
  output : OutputOptions;
  plugins : list Plugin;
  onwarn : option (Warning → (Warning → Proc unit) → Proc unit)
}.

(** A chunk or an asset of [result.output]. *)
Record OutputFile : Type := {
  fileName : string;
  out_code : option string;
  source : option string;
  (** the text of the source map object, when there is one *)
  map : option string
}.

(** [rollup(config)] gives a bundle or throws; the bundle's [generate]
    gives the output files or throws. *)
Record RollupLib : Type := {
  rollup : RollupConfig → Res (OutputOptions → Res (list OutputFile))
}.

(** ** The HTTP helpers of the dev server *)

Record HttpLibs : Type := {
  (** [new ModuleServer({root, maxDepth}).handleRequest(req, resp)]: the
      response it wrote when it returns true *)
  moduleserver : string → nat → Request → option Response;
  (** [serveStatic(root)(req, resp, next)]: the response it wrote, or
      [None] when it calls [next] *)
  serveStatic : string → Request → option Response
}.

(** ** The commands left to the git automation *)

Record CmdFn : Type := {
  fn_length : nat;
  fn_apply : list string → Proc unit
}.

Record Scripts : Type := {
  release : list string → Proc unit;
  install : list string → Proc unit;
  commit : list string → Proc unit;
  push : list string → Proc unit;
  runCmd : list string → Proc unit;
  (** a property that the object literal of [start] inherits *)
  inherited : string → option CmdFn
}.

(** ** The script *)

(** [function external(id)] *)
Definition external (id : string) : bool :=
  negb (String.eqb id "tslib") && negb (path_like id).

(** [a || b] on strings that may be undefined. *)
Definition js_or (a b : option string) : option string :=
  if truthy a then a else b.

Section Script.
Context (node : Node) (ts : TypeScript) (rl : RollupLib) (http : HttpLibs)
        (git : Scripts) (reg : Registry).

(** *** Module resolution *)

Definition resolve_name (host : CompilerHost (Sys ts))
    (parent : string) (opts : CompilerOptions) (nm : string)
    : option ResolvedModule :=
  let cm := sibling_import nm in
  let pkg := cm ≫= (λ id, packageNames reg !! id) in
  match pkg with
  | Some pkg =>
      Some {| resolvedFileName := main pkg;
              isExternalLibraryImport := false |}
  | None => resolveModuleName ts nm parent opts (sys host)
  end.

(** [function customResolve(ts, host)] *)
Definition customResolve (host : CompilerHost (Sys ts))
    : CompilerHost (Sys ts) :=
  {| sys := sys host;
     resolveModuleNames :=
       Some (λ names parent opts, List.map (resolve_name host parent opts) names) |}.

(** *** Compile stage *)

(** The program that [tsBuild] creates from the project configuration,
    with the resolution hook installed on its host. *)
Definition batch_program : Program :=
  let conf :=
    getParsedCommandLineOfConfigFile ts
      (path_join node [root node; "tsconfig.json"]) in
  createProgram ts (fileNames conf) (options conf)
    (customResolve (createCompilerHost ts (options conf))).

(** [function tsBuild()] *)
Definition tsBuild : Proc unit :=
  let program := batch_program in
  let emitResult := emit program in
  perform (TsEmit (emitSkipped emitResult)) ;;
  for_of (λ diag, console Err (Text (formatDiagnostic ts diag)))
    (preEmitDiagnostics program ++ diagnostics emitResult) ;;
  if emitSkipped emitResult then error (Text "TS build failed") else mret ().

(** [function tsWatch()] *)
Definition tsWatch : Proc unit :=
  perform (TsWatch (path_join node [root node; "tsconfig.json"])).

(** *** Bundle stage *)

(** [pkg.main.replace(/\.ts$/, ext)] *)
Definition main_as (ext : string) (pkg : Pkg) : Res string :=
  match main pkg with
  | Some m => Ok (replace_ts ext m)
  | None => Raise (TypeError "Cannot read property 'replace' of null")
  end.

(** [function rollupConfig(pkg)] *)
Definition rollupConfig (pkg : Pkg) : Res RollupConfig :=
  i ← main_as ".js" pkg;
  Ok {| input := i;
        cfg_external := external;
        output := {| format := "esm";
                     file := path_join node [dir pkg; "dist"; "index.js"];
                     sourcemap := true;
                     externalLiveBindings := Some false |};
        plugins := [lezer];
        onwarn := None |}.

(** The [onwarn] of [rollupDeclConfig]. *)
Definition decl_onwarn (warning : Warning) (warn : Warning → Proc unit)
    : Proc unit :=
  if negb (bool_decide (code warning = Some "CIRCULAR_DEPENDENCY"))
     && negb (bool_decide (code warning = Some "UNUSED_EXTERNAL_IMPORT"))
  then warn warning
  else mret ().

(** [function rollupDeclConfig(pkg)] *)
Definition rollupDeclConfig (pkg : Pkg) : Res RollupConfig :=
  i ← main_as ".d.ts" pkg;
  Ok {| input := i;
        cfg_external := external;
        output := {| format := "esm";
                     file := path_join node [dir pkg; "dist"; "index.d.ts"];
                     sourcemap := false;
                     externalLiveBindings := None |};
        plugins := [dts];
        onwarn := Some decl_onwarn |}.

(** [fsp.mkdir(dir, {recursive: true})] *)
Definition mkdir (d : string) : Proc unit :=
  match mkdir_error node d with
  | Some e => throw e
  | None => perform (Mkdir d)
  end.

(** [fsp.writeFile(path, data)] *)
Definition writeFile (path : string) (data : option string) : Proc unit :=
  match data with
  | None => throw (TypeError "The data argument must be a string")
  | Some content =>
      match writeFile_error node path with
      | Some e => throw e
      | None => perform (WriteFile path content)
      end
  end.

(** The body of the inner loop of [runRollup]. *)
Definition write_output (d : string) (f : OutputFile) : Proc unit :=
  writeFile (path_join node [d; fileName f]) (js_or (out_code f) (source f)) ;;
  match map f with
  | Some m => writeFile (path_join node [d; fileName f +:+ ".map"]) (Some m)
  | None => mret ()
  end.

(** The body of the outer loop of [runRollup]. *)
Definition run_config (config : RollupConfig) : Proc unit :=
  perform (Rollup (input config) (file (output config))) ;;
  bundle ← lift (rollup rl config);
  result ← lift (bundle (output config));
  let d := path_dirname node (file (output config)) in
  catch (mkdir d) (λ _, mret ()) ;;
  for_of (write_output d) result.

(** [async function runRollup(configs)] *)
Definition runRollup (configs : list RollupConfig) : Proc unit :=
  for_of run_config configs.

(** [Date.now()] *)
Definition now : Proc Z :=
  λ w, (Ret (Date_now node (clock w)),
        {| events := events w; clock := S (clock w) |}).

Definition done_in (t0 t1 : Z) : string :=
  "Done in " +:+ seconds node (t1 - t0) +:+ "s".

(** [runRollup(buildPackages.map(rollupConfig)
               .concat(buildPackages.map(rollupDeclConfig)))] *)
Definition bundle_stage : Proc unit :=
  code_configs ← lift (mapM rollupConfig (buildPackages reg));
  decl_configs ← lift (mapM rollupDeclConfig (buildPackages reg));
  runRollup (code_configs ++ decl_configs).

(** [async function build()] *)
Definition build : Proc unit :=
  console Info (Text "Running TypeScript compiler...") ;;
  t0 ← now;
  tsBuild ;;
  t1 ← now;
  console Info (Text (done_in t0 t1)) ;;
  console Info (Text "Building bundles...") ;;
  t0 ← now;
  bundle_stage ;;
  t1 ← now;
  console Log (Text (done_in t0 t1)).

(** *** Dev server *)

(** The request listener given to [http.createServer]. *)
Definition listener (serve : string) (req : Request) : Response :=
  match moduleserver http serve 2 req with
  | Some resp => resp
  | None =>
      match serveStatic http serve req with
      | Some resp => resp
      | None => {| statusCode := 404; body := "Not found" |}
      end
  end.

(** [function startServer()] *)
Definition startServer : Proc unit :=
  let serve := path_join node [root node; "demo"] in
  perform (Listen 8090%Z
             (if truthy (env node "OPEN") then None else Some "127.0.0.1")
             (listener serve)) ;;
  console Log (Text "Dev server listening on 8090").

(** The events of a rollup watcher. *)
Inductive WatchEvent : Type :=
  | START
  | END
  | ERROR (err : string)
  | BUNDLE_END
  | OTHER (event_code : string).

(** The listener of a package's code watcher. *)
Definition on_code_event (pkg : Pkg) (config : RollupConfig)
    (event : WatchEvent) : Proc unit :=
  match event with
  | START => console Info (Text ("Start bundling " +:+ name pkg +:+ "..."))
  | END => console Info (Text ("Finished bundling " +:+ name pkg))
  | ERROR e =>
      console Err (Text ("Bundling error (" +:+ name pkg +:+ "): " +:+ e))
  | BUNDLE_END => perform (CloseBundle (file (output config)))
  | OTHER _ => mret ()
  end.

(** The listener of a package's declaration watcher. *)
Definition on_decl_event (pkg : Pkg) (config : RollupConfig)
    (event : WatchEvent) : Proc unit :=
  match event with
  | ERROR e =>
      console Err
        (Text ("Decl bundling error (" +:+ name pkg +:+ "): " +:+ e))
  | BUNDLE_END => perform (CloseBundle (file (output config)))
  | _ => mret ()
  end.

(** [function devserver()], up to the installation of the watchers. *)
Definition devserver : Proc unit :=
  tsWatch ;;
  console Log (Text "Watching...") ;;
  for_of (λ pkg,
            c ← lift (rollupConfig pkg);
            perform (RollupWatch (input c) (file (output c))) ;;
            d ← lift (rollupDeclConfig pkg);
            perform (RollupWatch (input d) (file (output d))))
         (buildPackages reg) ;;
  startServer.

(** *** Command dispatch *)

Definition nl : string := String "010"%char EmptyString.

Definition usage : string :=
  String.concat nl
    [ "Usage:";
      "  cm install [--ssh]      Clone and symlink the packages, install dependencies, build";
      "  cm packages             Emit a list of all pkg names";
      "  cm build                Build the bundle files";
      "  cm devserver            Start a dev server on port 8090";
      "  cm release              Create commits to tag a release";
      "  cm commit <args>        Run git commit in all packages that have changes";
      "  cm push                 Run git push in packages that have new commits";
      "  cm run <command>        Run the given command in each of the package dirs";
      "  cm --help" ].

(** [function help(status)] *)
Definition help (status : nat) : Proc unit :=
  console Log (Text usage) ;; exit status.

(** [function listPackages()] *)
Definition listPackages : Proc unit :=
  console Log (Text (String.concat nl (List.map name (packages reg)))).

(** [function assertInstalled()] *)
Definition assertInstalled : Proc unit :=
  for_of (λ p,
            if negb (existsSync node (dir p))
            then console Err (Text ("module " +:+ name p +:+
                   " is missing. Did you forget to run 'cm install'?")) ;;
                 exit 1
            else mret ())
         (packages reg).

(** The object literal of [start], looked up at [command]. *)
Definition command_table (command : string) : option CmdFn :=
  if String.eqb command "packages"
  then Some {| fn_length := 0; fn_apply := λ _, listPackages |}
  else if String.eqb command "build"
  then Some {| fn_length := 0; fn_apply := λ _, build |}
  else if String.eqb command "devserver"
  then Some {| fn_length := 0; fn_apply := λ _, devserver |}
  else if String.eqb command "release"
  then Some {| fn_length := 0; fn_apply := release git |}
  else if String.eqb command "install"
  then Some {| fn_length := 0; fn_apply := install git |}
  else if String.eqb command "commit"
  then Some {| fn_length := 0; fn_apply := commit git |}
  else if String.eqb command "push"
  then Some {| fn_length := 0; fn_apply := push git |}
  else if String.eqb command "run"
  then Some {| fn_length := 1; fn_apply := runCmd git |}
  else if String.eqb command "--help"
  then Some {| fn_length := 0; fn_apply := λ _, help 0 |}
  else inherited git command.

(** The rest of [start] after the installation check: the lookup of
    the command's function, the check of the number of arguments and
    the call, whose exception or rejection goes to [error]. *)
Definition dispatch (command : option string) : Proc unit :=
  let args := drop 3 (argv node) in
  let cmdFn := command ≫= command_table in
  (match cmdFn with
   | None => help 1
   | Some fn =>
       if Nat.ltb (length args) (fn_length fn) then help 1 else mret ()
   end) ;;
  catch (match cmdFn with
         | Some fn => fn_apply fn args
         | None => throw (TypeError "Cannot read property 'apply' of undefined")
         end)
        (λ e, error (Thrown e)).

(** [function start()] *)
Definition start : Proc unit :=
  let command := argv node !! 2%nat in
  (if truthy command
      && negb (includes (default "" command) ["install"; "--help"])
   then assertInstalled else mret ()) ;;
  dispatch command.
End Script.

(** The whole script: the registry is built by the module-level
    statements, then [start()] runs.  An exception of the registry is
    uncaught. *)
Definition cm (node : Node) (ts : TypeScript) (rl : RollupLib)
    (http : HttpLibs) (git : Scripts) : Proc unit :=
  reg ← lift (load_registry node);
  start node ts rl http git reg.

(** ** Concrete hosts, on which the script is run *)

Fixpoint has_slash (s : string) : bool :=
  match s with
  | EmptyString => false
  | String c r => Ascii.eqb c "/" || has_slash r
  end.

(** The text before the last separator. *)
Fixpoint before_last_slash (s : string) : string :=
  match s with
  | EmptyString => EmptyString
  | String c r => if has_slash r then String c (before_last_slash r) else EmptyString
  end.

Definition a_node (readdir : string → Res (list string))
    (exists_ : string → bool) (env_ : string → option string)
    (args : list string) : Node :=
  {| __dirname := "/cm/bin";
     path_join := String.concat "/";
     path_dirname := before_last_slash;
     readdirSync := readdir;
     existsSync := exists_;
     mkdir_error := λ _, None;
     writeFile_error := λ _, None;
     env := env_;
     argv := args;
     Date_now := λ n, (1000 * Z.of_nat n)%Z;
     seconds := λ _, "1.00" |}.

(** A checkout in which [state] has the single file [state.ts], [view]
    has an index file, [lang-python] has [python.ts] beside a helper,
    [legacy-modes] has two source files and every other package has an
    index file only. *)
Definition demo_readdir (path : string) : Res (list string) :=
  if String.eqb path "/cm/bin/../state/src" then Ok ["state.ts"]
  else if String.eqb path "/cm/bin/../view/src"
  then Ok ["index.ts"; "other.ts"; ".hidden.ts"; "notes.md"]
  else if String.eqb path "/cm/bin/../lang-python/src"
  then Ok ["python.ts"; "helpers.ts"]
  else if String.eqb path "/cm/bin/../legacy-modes/src"
  then Ok ["index.ts"; "modes.ts"]
  else Ok ["index.ts"].

Definition demo_node : Node :=
  a_node demo_readdir (λ _, true) (λ _, None) ["node"; "cm"; "build"].

(** A checkout in which every source directory holds the one file
    [mode.ts]. *)
Definition single_node : Node :=
  a_node (λ _, Ok ["mode.ts"]) (λ _, true) (λ _, None) ["node"; "cm"; "build"].


(** [OPEN] is set, to the empty string. *)
Definition open_empty_node : Node :=
  a_node demo_readdir (λ _, true)
         (λ k, if String.eqb k "OPEN" then Some "" else None)
         ["node"; "cm"; "devserver"].

(** [OPEN=1]. *)
Definition open_node : Node :=
  a_node demo_readdir (λ _, true)
         (λ k, if String.eqb k "OPEN" then Some "1" else None)
         ["node"; "cm"; "devserver"].

(** A compiler that reports one type error and emits, or skips the emit. *)
Definition a_ts (skipped : bool) : TypeScript :=
  {| Sys := unit;
     getParsedCommandLineOfConfigFile :=
       λ _, {| fileNames := ["/cm/state/src/state.ts"]; options := [] |};
     createCompilerHost := λ _, {| sys := (); resolveModuleNames := None |};
     createProgram := λ _ _ _,
       {| emit := {| emitSkipped := skipped; diagnostics := [] |};
          preEmitDiagnostics :=
            [ {| category := 1; diag_code := 2322;
                 messageText := "Type 'string' is not assignable to type 'number'." |} ] |};
     resolveModuleName := λ nm _ _ _,
       Some {| resolvedFileName := Some ("/cm/node_modules/" +:+ nm +:+ "/index.d.ts");
               isExternalLibraryImport := true |};
     formatDiagnostic := messageText |}.

(** A bundler that gives one chunk per configuration, named after the
    kind of bundle, with a source map when one is asked for. *)
Definition demo_rollup : RollupLib :=
  {| rollup := λ config,
       Ok (λ out,
             Ok [ {| fileName := if sourcemap out then "index.js" else "index.d.ts";
                     out_code := Some ("// bundle of " +:+ input config);
                     source := None;
                     map := if sourcemap out then Some "{}" else None |} ]) |}.

(** The package [state] of the demo checkout, and what [demo_rollup]
    generates for a package. *)
Definition demo_state : Pkg :=
  {| name := "state"; dir := "/cm/bin/../state";
     main := Some "/cm/bin/../state/src/state.ts" |}.

Definition demo_code_of (p : Pkg) : string :=
  "// bundle of " +:+ replace_ts ".js" (default "" (main p)).

Definition demo_map_of (p : Pkg) : string := "{}".

Definition demo_decl_of (p : Pkg) : string :=
  "// bundle of " +:+ replace_ts ".d.ts" (default "" (main p)).

Definition demo_http : HttpLibs :=
  {| moduleserver := λ _ _ req,
       if String.eqb (url req) "/_m/index.js"
       then Some {| statusCode := 200; body := "module" |} else None;
     serveStatic := λ _ req,
       if String.eqb (url req) "/index.html"
       then Some {| statusCode := 200; body := "page" |} else None |}.

Definition demo_git : Scripts :=
  {| release := λ _, throw (ReferenceError "packageJSON is not defined");
     install := λ _, mret ();
     commit := λ _, mret ();
     push := λ _, mret ();
     runCmd := λ _, mret ();
     inherited := λ _, None |}.

(** A checkout in which only the directory of [legacy-modes], which the
    registry does not read, is missing. *)
Definition without_legacy (d : string) : bool :=
  negb (String.eqb d "/cm/bin/../legacy-modes").

(** [cm build] in that checkout. *)
Definition missing_legacy_node : Node :=
  a_node demo_readdir without_legacy (λ _, None) ["node"; "cm"; "build"].

(** [cm ""], an empty argument in the place of the command. *)
Definition empty_command_node : Node :=
  a_node demo_readdir without_legacy (λ _, None) ["node"; "cm"; ""].

(** [cm install] in that checkout. *)
Definition install_node : Node :=
  a_node demo_readdir without_legacy (λ _, None) ["node"; "cm"; "install"].

(** The world before the script has done anything. *)
Definition start_world : World := {| events := []; clock := 0 |}.

(** The registry of a host, when its construction succeeds. *)
Definition registry_of (node : Node) : Registry :=
  match load_registry node with
  | Ok reg => reg
  | Raise _ => {| packages := []; buildPackages := []; packageNames := ∅ |}
  end.

(** ** The commands that run git and yarn, and the release helpers *)

Module Cmd.

(** A program run by [child.execFileSync]: the file, its arguments and
    the working directory. *)
Record Call : Type := { cmd : string; args : list string; cwd : string }.

Record Os : Type := {
  (** the standard output of a run, or the exception of a failed one *)
  execFileSync : Call → Res string;
  (** [e.toString()] *)
  error_toString : JsError → string;
  (** what Node does with the rejection of a promise that nobody awaits *)
  unhandledRejection : JsError → Proc unit
}.

(** The commands perform events and run programs; both are logged, in
    the order in which they happen. *)
Inductive Step : Type :=
  | Did (e : Event)
  | Ran (c : Call).

Record Shell : Type := { log : list Step; ticks : nat }.

Definition Script (A : Type) : Type := Shell → Outcome A * Shell.

#[global] Instance Script_ret : MRet Script := λ A a sh, (Ret a, sh).
#[global] Instance Script_bind : MBind Script :=
  λ A B f m sh,
    match m sh with
    | (Ret a, sh') => f a sh'
    | (Exit s, sh') => (Exit s, sh')
    | (Throw e, sh') => (Throw e, sh')
    end.

(** An action of the script proper, run inside a command: what it
    performs goes to the log. *)
Definition in_world {A : Type} (m : Proc A) : Script A :=
  λ sh,
    match m {| events := []; clock := ticks sh |} with
    | (o, w) =>
        (o, {| log := log sh ++ List.map Did (events w); ticks := clock w |})
    end.

(** [try { m } catch (e) { h(e) }] *)
Definition attempt {A : Type} (m : Script A) (h : JsError → Script A)
    : Script A :=
  λ sh,
    match m sh with
    | (Throw e, sh') => h e sh'
    | r => r
    end.

(** [for (let x of l) f(x)] *)
Fixpoint each {A : Type} (f : A → Script unit) (l : list A) : Script unit :=
  match l with
  | [] => mret ()
  | x :: r => f x ;; each f r
  end.

(** The events among the steps of a log. *)
Definition did (steps : list Step) : list Event :=
  flat_map (λ s, match s with Did e => [e] | Ran _ => [] end) steps.

(** A command as [start] calls it. *)
Definition to_proc (m : Script unit) : Proc unit :=
  λ w,
    match m {| log := []; ticks := clock w |} with
    | (o, sh) => (o, {| events := events w ++ did (log sh); clock := ticks sh |})
    end.

(** [/\bahead\b/.test(s)]: [ahead_after w s] looks for the word in [s],
    given whether the character before [s] is a word character. *)
Definition starts_word (s : string) : bool :=
  match s with
  | String c _ => word_char c
  | EmptyString => false
  end.

Fixpoint ahead_after (word_before : bool) (s : string) : bool :=
  match s with
  | EmptyString => false
  | String c r =>
      (negb word_before
       && match strip_prefix "ahead" s with
          | Some rest => negb (starts_word rest)
          | None => false
          end)
      || ahead_after (word_char c) r
  end.

Definition has_ahead (s : string) : bool := ahead_after false s.

(** [version.split(".")] *)
Fixpoint split_dot (s : string) : list string :=
  match s with
  | EmptyString => [EmptyString]
  | String c r =>
      if Ascii.eqb c "." then EmptyString :: split_dot r
      else match split_dot r with
           | part :: parts => String c part :: parts
           | [] => [String c EmptyString]
           end
  end.

(** The release notes found in the commit messages. *)
Record Changes : Type := {
  fix_ : list string;
  feature : list string;
  breaking : list string
}.

(** A string or [undefined] inside a template literal. *)
Definition shown (v : option string) : string :=
  match v with
  | Some s => s
  | None => "undefined"
  end.

(** [function bumpVersion(version, changes)]; [succ v] is the text of
    [Number(v) + 1]. *)
Definition bumpVersion (succ : option string → string)
    (version : string) (changes : Changes) : Res string :=
  let parts := split_dot version in
  let major := parts !! 0%nat in
  let minor := parts !! 1%nat in
  let patch := parts !! 2%nat in
  if negb (Nat.eqb (length (breaking changes)) 0)
     && negb (bool_decide (major = Some "0"))
  then Ok (succ major +:+ ".0.0")
  else if negb (Nat.eqb (length (feature changes)) 0)
          || negb (Nat.eqb (length (breaking changes)) 0)
  then Ok (shown major +:+ "." +:+ succ minor +:+ ".0")
  else if negb (Nat.eqb (length (fix_ changes)) 0)
  then Ok (shown major +:+ "." +:+ shown minor +:+ "." +:+ succ patch)
  else Raise (Error "No new release notes!").

Definition refTarget : string := "https://codemirror.net/6/docs/ref/".

(** [message.replace(/\]\(##/g, "](" + refTarget + "#")] *)
Fixpoint link_refs (message : string) : string :=
  match message with
  | EmptyString => EmptyString
  | String c r =>
      match r with
      | String c1 (String c2 (String c3 r')) =>
          if Ascii.eqb c "]" && Ascii.eqb c1 "(" && Ascii.eqb c2 "#"
             && Ascii.eqb c3 "#"
          then "](" +:+ refTarget +:+ "#" +:+ link_refs r'
          else String c (link_refs r)
      | _ => String c (link_refs r)
      end
  end.

(** [n < 10 ? "0" + n : n], as text. *)
Definition pad (n : nat) : string :=
  if Nat.ltb n 10 then "0" +:+ pretty n else pretty n.

(** What the loop of [releaseNotes] adds to the body for one type. *)
Definition notes_of (title : string) (messages : list string) : string :=
  (if negb (Nat.eqb (length messages) 0)
   then "### " +:+ title +:+ nl +:+ nl else "")
  +:+ String.concat "" (List.map (λ m, link_refs m +:+ nl +:+ nl) messages).

(** [function releaseNotes(changes, version)], on the day with the
    given [getFullYear()], [getMonth()] and [getDate()]; the result is
    the head and the body. *)
Definition releaseNotes (year month day : nat) (changes : Changes)
    (version : string) : string * string :=
  let date := pretty year +:+ "-" +:+ pad (month + 1) +:+ "-" +:+ pad day in
  ("## " +:+ version +:+ " (" +:+ date +:+ ")" +:+ nl +:+ nl,
   notes_of "Breaking changes" (breaking changes)
   +:+ notes_of "Bug fixes" (fix_ changes)
   +:+ notes_of "New features" (feature changes)).

Section Commands.
Context (node : Node) (ts : TypeScript) (rl : RollupLib) (os : Os)
        (reg : Registry).

(** [function run(cmd, args, wd = root)] *)
Definition run (c : string) (a : list string) (wd : string) : Script string :=
  λ sh,
    let call := {| cmd := c; args := a; cwd := wd |} in
    let sh' := {| log := log sh ++ [Ran call]; ticks := ticks sh |} in
    match execFileSync os call with
    | Ok out => (Ret out, sh')
    | Raise e => (Throw e, sh')
    end.

(** [function install(arg = null)] *)
Definition install (arg : option string) : Script unit :=
  let base :=
    if bool_decide (arg = Some "--ssh")
    then "git@github.com:codemirror/" else "https://github.com/codemirror/" in
  (if truthy arg && negb (bool_decide (arg = Some "--ssh"))
   then in_world (help 1) else mret ()) ;;
  each (λ pkg,
          if existsSync node (dir pkg)
          then in_world (console Warn (Text ("Skipping cloning of " +:+ name pkg
                                             +:+ " (directory exists)")))
          else
            let origin := base +:+ name pkg +:+ ".git" in
            run "git" ["clone"; origin; dir pkg] (root node) ;; mret ())
       (packages reg) ;;
  in_world (console Log (Text "Running yarn install")) ;;
  run "yarn" ["install"] (root node) ;;
  in_world (console Log (Text "Building modules")) ;;
  in_world (catch (build node ts rl reg) (unhandledRejection os)).

(** [function commit(...args)] *)
Definition commit (a : list string) : Script unit :=
  each (λ pkg,
          unstaged ← run "git" ["diff"] (dir pkg);
          changed ← (if truthy (Some unstaged) then mret true
                     else staged ← run "git" ["diff"; "--cached"] (dir pkg);
                          mret (truthy (Some staged)));
          if changed : bool
          then out ← run "git" ("commit" :: a) (dir pkg);
               in_world (console Log (Text (name pkg +:+ ":" +:+ nl +:+ out)))
          else mret ())
       (packages reg).

(** [function push()] *)
Definition push : Script unit :=
  each (λ pkg,
          status ← run "git" ["status"; "-sb"] (dir pkg);
          if has_ahead status
          then run "git" ["push"] (dir pkg) ;; mret ()
          else mret ())
       (packages reg).

(** [function runCmd(cmd, ...args)]; [cmd] is undefined when [start]
    has no argument to give. *)
Definition runCmd (c : option string) (a : list string) : Script unit :=
  each (λ pkg,
          in_world (console Log (Text (name pkg +:+ ":"))) ;;
          attempt
            (out ← match c with
                   | Some c => run c a (dir pkg)
                   | None => λ sh, (Throw (TypeError "The file argument must be a string"), sh)
                   end;
             in_world (console Log (Text out)))
            (λ e, in_world (console Log (Text (error_toString os e)) ;; exit 1)))
       (packages reg).

(** [function release(...args)]: its first statement reads
    [packageJSON], which the script does not declare. *)
Definition release (a : list string) : Script unit :=
  λ sh, (Throw (ReferenceError "packageJSON is not defined"), sh).

(** The functions of the object literal of [start] that run programs,
    with the arguments that [cmdFn.apply(null, args)] gives them. *)
Definition scripts (proto : string → option CmdFn) : Scripts :=
  Build_Scripts
    (λ a, to_proc (release a))
    (λ a, to_proc (install (a !! 0%nat)))
    (λ a, to_proc (commit a))
    (λ _, to_proc push)
    (λ a, to_proc (runCmd (a !! 0%nat) (drop 1 a)))
    proto.
End Commands.

End Cmd.

(** ** More concrete hosts *)

(** A checkout in which the source directory of [text] holds no source
    file. *)
Definition empty_src_node : Node :=
  a_node (λ path, if String.eqb path "/cm/bin/../text/src"
                  then Ok ["README.md"; ".eslintrc.ts"; "text.d.ts"]
                  else Ok ["index.ts"])
         (λ _, true) (λ _, None) ["node"; "cm"; "build"].

(** A fresh checkout, without any package directory: [cm install]. *)
Definition fresh_node : Node :=
  a_node (λ path, Raise (SystemError "ENOENT" path))
         (λ _, false) (λ _, None) ["node"; "cm"; "install"].

(** The configuration of the code bundle of the package [nm] of the
    demo checkout, when its main script is an index file. *)
Definition demo_config (nm : string) : RollupConfig :=
  {| input := "/cm/bin/../" +:+ nm +:+ "/src/index.js";
     cfg_external := external;
     output := {| format := "esm";
                  file := "/cm/bin/../" +:+ nm +:+ "/dist/index.js";
                  sourcemap := true;
                  externalLiveBindings := Some false |};
     plugins := [lezer];
     onwarn := None |}.

(** A bundler that fails on the package [text]. *)
Definition failing_rollup : RollupLib :=
  {| rollup := λ config,
       if String.eqb (input config) "/cm/bin/../text/src/index.js"
       then Raise (Error "Unexpected token")
       else rollup demo_rollup config |}.

(** [cm --help] in a checkout without any package directory. *)
Definition help_node : Node :=
  a_node demo_readdir (λ _, false) (λ _, None) ["node"; "cm"; "--help"].

(** [cm deploy], a command that the script does not have, in a complete
    checkout and in one without [legacy-modes]. *)
Definition deploy_node : Node :=
  a_node demo_readdir (λ _, true) (λ _, None) ["node"; "cm"; "deploy"].

Definition deploy_missing_node : Node :=
  a_node demo_readdir without_legacy (λ _, None) ["node"; "cm"; "deploy"].

(** [cm run] without the command to run, in a complete checkout. *)
Definition run_node : Node :=
  a_node demo_readdir (λ _, true) (λ _, None) ["node"; "cm"; "run"].

(** An operating system in which [state] has changes in its working
    tree, [view] has staged changes and is ahead of its remote, and
    every program succeeds, except those run in the directory of
    [commands]. *)
Definition demo_exec (c : Cmd.Call) : Res string :=
  if String.eqb (Cmd.cwd c) "/cm/bin/../commands"
  then Raise (Error "Command failed")
  else if bool_decide (Cmd.args c = ["diff"])
  then Ok (if String.eqb (Cmd.cwd c) "/cm/bin/../state" then "diff --git" else "")
  else if bool_decide (Cmd.args c = ["diff"; "--cached"])
  then Ok (if String.eqb (Cmd.cwd c) "/cm/bin/../view" then "diff --git" else "")
  else if bool_decide (Cmd.args c = ["status"; "-sb"])
  then Ok (if String.eqb (Cmd.cwd c) "/cm/bin/../view"
           then "## master...origin/master [ahead 1]"
           else "## master...origin/master")
  else Ok "done".

Definition demo_toString (e : JsError) : string :=
  match e with
  | Error m => "Error: " +:+ m
  | TypeError m => "TypeError: " +:+ m
  | ReferenceError m => "ReferenceError: " +:+ m
  | SystemError c p => "Error: " +:+ c +:+ ": " +:+ p
  end.

Definition demo_os : Cmd.Os :=
  {| Cmd.execFileSync := demo_exec;
     Cmd.error_toString := demo_toString;
     Cmd.unhandledRejection := λ e, error (Thrown e) |}.

(** The same, where every program succeeds. *)
Definition calm_os : Cmd.Os :=
  {| Cmd.execFileSync := λ c,
       match demo_exec c with
       | Ok out => Ok out
       | Raise _ => Ok ""
       end;
     Cmd.error_toString := demo_toString;
     Cmd.unhandledRejection := λ e, error (Thrown e) |}.

(** A registry of three packages of the demo checkout. *)
Definition small_registry : Registry :=
  let pkgs :=
    [ demo_state;
      {| name := "view"; dir := "/cm/bin/../view";
         main := Some "/cm/bin/../view/src/index.ts" |};
      {| name := "commands"; dir := "/cm/bin/../commands";
         main := Some "/cm/bin/../commands/src/index.ts" |};
      {| name := "legacy-modes"; dir := "/cm/bin/../legacy-modes";
         main := None |} ] in
  {| packages := pkgs;
     buildPackages := List.filter (λ p, truthy (main p)) pkgs;
     packageNames := index_by_name pkgs |}.

Definition start_shell : Cmd.Shell := {| Cmd.log := []; Cmd.ticks := 0 |}.

(** [cm release --edit] in a complete checkout. *)
Definition release_node : Node :=
  a_node demo_readdir (λ _, true) (λ _, None) ["node"; "cm"; "release"; "--edit"].

(** [Number(v) + 1] on the numbers up to 3, as text. *)
Definition demo_succ (v : option string) : string :=
  match v with
  | Some "0" => "1"
  | Some "1" => "2"
  | Some "2" => "3"
  | Some "3" => "4"
  | _ => "NaN"
  end.

(** * The vocabulary of the properties *)

(** [s] starts with the literal [p]. *)
Definition starts_with (p s : string) : Prop := ∃ r, s = p +:+ r.

(** No character of [s] is a dot. *)
Fixpoint no_dot (s : string) : bool :=
  match s with
  | EmptyString => true
  | String c r => negb (Ascii.eqb c ".") && no_dot r
  end.

(** A specifier that starts with a word character and a colon, as a
    path with a drive letter does. *)
Definition drive_style (id : string) : Prop :=
  ∃ c r, id = String c (String ":" r) ∧ word_char c = true.

(** What [tsBuild] prints for the diagnostics of a program. *)
Definition printed_diagnostics (ts : TypeScript) (program : Program)
    : list Event :=
  List.map (λ d, Console Err (Text (formatDiagnostic ts d)))
    (preEmitDiagnostics program ++ diagnostics (emit program)).

(** The events of [tsBuild]: the emit, the diagnostics and, when the
    emit was skipped, the fatal message. *)
Definition tsBuild_events (ts : TypeScript) (program : Program) : list Event :=
  TsEmit (emitSkipped (emit program)) :: printed_diagnostics ts program
  ++ (if emitSkipped (emit program)
      then [Console Err (Text "TS build failed")] else []).

(** The source directory that the constructor reads. *)
Definition src_of (node : Node) (nm : string) : string :=
  path_join node [path_join node [root node; nm]; "src"].

(** The package that the constructor builds around the main script
    [f]. *)
Definition with_main (node : Node) (nm f : string) : Pkg :=
  {| name := nm;
     dir := path_join node [root node; nm];
     main := Some (path_join node [path_join node [root node; nm]; "src"; f]) |}.

(** The constructor, and with it the registry, picks [f] as the main
    script of [nm]. *)
Definition picks (node : Node) (nm f : string) : Prop :=
  new_Pkg node nm = Ok (with_main node nm f)
  ∧ ∀ reg, load_registry node = Ok reg →
           nm ∈ core_names ++ nonCore_names →
           packageNames reg !! nm = Some (with_main node nm f).

(** Registry construction fails on [nm]: the constructor throws, and
    when [nm] is a declared package the script ends with an uncaught
    exception before it has performed any effect. *)
Definition fails_on (node : Node) (nm : string) : Prop :=
  new_Pkg node nm = Raise (Error ("Couldn't find a main script for " +:+ nm))
  ∧ (nm ∈ core_names ++ nonCore_names →
     (∃ e, load_registry node = Raise e)
     ∧ ∀ ts rl http git w, ∃ e, cm node ts rl http git w = (Throw e, w)).




(** A package with a resolved main entry. *)
Definition buildable (pkg : Pkg) : Prop := is_Some (main pkg).


(** The handler drops the warning: it never calls [warn]. *)
Definition suppressed
    (f : Warning → (Warning → Proc unit) → Proc unit) (w : Warning) : Prop :=
  ∀ warn, f w warn = mret ().

(** The handler passes the warning on to [warn]. *)
Definition surfaced
    (f : Warning → (Warning → Proc unit) → Proc unit) (w : Warning) : Prop :=
  ∀ warn, f w warn = warn w.

(** The two kinds of warning that a declaration bundle is expected to
    raise. *)
Definition expected_in_declarations (w : Warning) : Prop :=
  code w = Some "CIRCULAR_DEPENDENCY" ∨ code w = Some "UNUSED_EXTERNAL_IMPORT".

(** The world [w] with the events [evs] added. *)
Definition add (w : World) (evs : list Event) : World :=
  {| events := events w ++ evs; clock := clock w |}.

(** An action only adds events. *)
Definition extends {A : Type} (m : Proc A) : Prop :=
  ∀ w, ∃ evs, events (m w).2 = events w ++ evs.

(** The events of the bundle stage: calls of rollup and writes of the
    file system. *)
Definition bundle_event (e : Event) : bool :=
  match e with
  | Rollup _ _ | Mkdir _ | WriteFile _ _ => true
  | _ => false
  end.

(** The response [resp] to [req] is that of the module server when it
    handles the request, else that of the static file server when it
    serves a file, else a 404. *)
Definition answers (http : HttpLibs) (serve : string) (req : Request)
    (resp : Response) : Prop :=
  (∀ r, moduleserver http serve 2 req = Some r → resp = r)
  ∧ (moduleserver http serve 2 req = None →
     ∀ r, serveStatic http serve req = Some r → resp = r)
  ∧ (moduleserver http serve 2 req = None →
     serveStatic http serve req = None →
     resp = {| statusCode := 404; body := "Not found" |}).

(** What [assertInstalled] prints for a package without directory. *)
Definition missing_message (p : Pkg) : Event :=
  Console Err (Text ("module " +:+ name p +:+
                     " is missing. Did you forget to run 'cm install'?")).

(** An output chunk with its code and, possibly, its source map. *)
Definition chunk (nm code : string) (m : option string) : OutputFile :=
  {| fileName := nm; out_code := Some code; source := None; map := m |}.

(** Rollup bundles [config] and generates [files] from the bundle. *)
Definition bundles_to (rl : RollupLib) (config : RollupConfig)
    (files : list OutputFile) : Prop :=
  ∃ bundle, rollup rl config = Ok bundle ∧ bundle (output config) = Ok files.

(** The events of [run_config] on a configuration that bundles to one
    chunk. *)
Definition chunk_events (node : Node) (config : RollupConfig)
    (nm code : string) (m : option string) : list Event :=
  let d := path_dirname node (file (output config)) in
  [ Rollup (input config) (file (output config));
    Mkdir d;
    WriteFile (path_join node [d; nm]) code ]
  ++ match m with
     | Some mp => [WriteFile (path_join node [d; nm +:+ ".map"]) mp]
     | None => []
     end.

(** The text of [s] ends with [suffix]. *)
Definition ends_with (suffix s : string) : Prop := ∃ stem, s = stem +:+ suffix.

(** The names of the object literal of [start]. *)
Definition commands : list string :=
  [ "packages"; "build"; "devserver"; "release"; "install"; "commit";
    "push"; "run"; "--help" ].

(** What [runRollup] writes for an output file: [file.code || file.source]. *)
Definition content_of (f : OutputFile) : option string :=
  js_or (out_code f) (source f).

(** The writes of [runRollup] for one output file in the directory [d]. *)
Definition file_events (node : Node) (d : string) (f : OutputFile)
    : list Event :=
  match content_of f with
  | Some content => [WriteFile (path_join node [d; fileName f]) content]
  | None => []
  end
  ++ match map f with
     | Some m => [WriteFile (path_join node [d; fileName f +:+ ".map"]) m]
     | None => []
     end.

(** The creation of the directory [d] by [runRollup], when it succeeds. *)
Definition mkdir_events (node : Node) (d : string) : list Event :=
  match mkdir_error node d with
  | None => [Mkdir d]
  | Some _ => []
  end.

(** The two watchers that [devserver] installs for a package. *)
Definition watchers (node : Node) (p : Pkg) : list Event :=
  match main p with
  | Some m =>
      [ RollupWatch (replace_ts ".js" m)
          (path_join node [dir p; "dist"; "index.js"]);
        RollupWatch (replace_ts ".d.ts" m)
          (path_join node [dir p; "dist"; "index.d.ts"]) ]
  | None => []
  end.

(** The usage, as [help] prints it. *)
Definition usage_printed : Event := Console Log (Text usage).

(** The shell [sh] with the steps [steps] added to its log. *)
Definition extend (sh : Cmd.Shell) (steps : list Cmd.Step) : Cmd.Shell :=
  {| Cmd.log := Cmd.log sh ++ steps; Cmd.ticks := Cmd.ticks sh |}.

(** The program [c] with the arguments [a], run in the directory of the
    package [p]. *)
Definition in_dir (c : string) (a : list string) (p : Pkg) : Cmd.Call :=
  {| Cmd.cmd := c; Cmd.args := a; Cmd.cwd := dir p |}.

(** The output of a run, empty when the run fails. *)
Definition output_of (os : Cmd.Os) (c : Cmd.Call) : string :=
  match Cmd.execFileSync os c with
  | Ok out => out
  | Raise _ => ""
  end.

(** Every program that the script runs succeeds. *)
Definition always_succeeds (os : Cmd.Os) : Prop :=
  ∀ c, ∃ out, Cmd.execFileSync os c = Ok out.

(** The steps of [runCmd] in a package where the command succeeds. *)
Definition ran_in (os : Cmd.Os) (c : string) (a : list string) (p : Pkg)
    : list Cmd.Step :=
  [ Cmd.Did (Console Log (Text (name p +:+ ":")));
    Cmd.Ran (in_dir c a p);
    Cmd.Did (Console Log (Text (output_of os (in_dir c a p)))) ].

(** The steps of [runCmd] in a package where the command fails with the
    exception [e]. *)
Definition failed_in (os : Cmd.Os) (c : string) (a : list string) (p : Pkg)
    (e : JsError) : list Cmd.Step :=
  [ Cmd.Did (Console Log (Text (name p +:+ ":")));
    Cmd.Ran (in_dir c a p);
    Cmd.Did (Console Log (Text (Cmd.error_toString os e))) ].

(** The package has changes, in its working tree or staged. *)
Definition has_changes (os : Cmd.Os) (p : Pkg) : Prop :=
  output_of os (in_dir "git" ["diff"] p) ≠ ""
  ∨ output_of os (in_dir "git" ["diff"; "--cached"] p) ≠ "".

(** What [commit] prints for a package in which it has committed. *)
Definition committed (os : Cmd.Os) (a : list string) (p : Pkg) : Cmd.Step :=
  Cmd.Did (Console Log
             (Text (name p +:+ ":" +:+ nl
                    +:+ output_of os (in_dir "git" ("commit" :: a) p)))).

(** The steps of [commit] in one package. *)
Definition commit_steps (os : Cmd.Os) (a : list string) (p : Pkg)
    : list Cmd.Step :=
  let unstaged := output_of os (in_dir "git" ["diff"] p) in
  let staged := output_of os (in_dir "git" ["diff"; "--cached"] p) in
  Cmd.Ran (in_dir "git" ["diff"] p)
  :: (if String.eqb unstaged "" then [Cmd.Ran (in_dir "git" ["diff"; "--cached"] p)]
      else [])
  ++ (if String.eqb unstaged "" && String.eqb staged "" then []
      else [Cmd.Ran (in_dir "git" ("commit" :: a) p); committed os a p]).

(** The status of the package says that it is ahead of its remote. *)
Definition is_ahead (os : Cmd.Os) (p : Pkg) : bool :=
  Cmd.has_ahead (output_of os (in_dir "git" ["status"; "-sb"] p)).

(** The steps of [push] in one package. *)
Definition push_steps (os : Cmd.Os) (p : Pkg) : list Cmd.Step :=
  Cmd.Ran (in_dir "git" ["status"; "-sb"] p)
  :: (if is_ahead os p then [Cmd.Ran (in_dir "git" ["push"] p)] else []).

(** The last character of [s] is a word character. *)
Fixpoint ends_word (s : string) : bool :=
  match s with
  | EmptyString => false
  | String c EmptyString => word_char c
  | String _ r => ends_word r
  end.

(** The step of [install] for one package: a warning when its directory
    exists, the clone from [base] otherwise. *)
Definition clone_or_skip (node : Node) (base : string) (p : Pkg)
    : list Cmd.Step :=
  if existsSync node (dir p)
  then [Cmd.Did (Console Warn (Text ("Skipping cloning of " +:+ name p
                                     +:+ " (directory exists)")))]
  else [Cmd.Ran {| Cmd.cmd := "git";
                   Cmd.args := ["clone"; base +:+ name p +:+ ".git"; dir p];
                   Cmd.cwd := root node |}].

(** The text has the link syntax that [releaseNotes] rewrites. *)
Definition has_ref_link (s : string) : Prop :=
  ∃ pre post, s = pre +:+ "](##" +:+ post.

(** No list of release notes has an entry. *)
Definition no_changes (changes : Cmd.Changes) : Prop :=
  Cmd.breaking changes = [] ∧ Cmd.feature changes = [] ∧ Cmd.fix_ changes = [].

(** * Properties *)

(** ** Strings and patterns *)

Lemma append_nil_l s : "" +:+ s = s.
Proof. reflexivity. Qed.

Lemma append_cons c a b : String c a +:+ b = String c (a +:+ b).
Proof. reflexivity. Qed.

Ltac string_simpl :=
  repeat (rewrite ?append_nil_l, ?append_cons in *; simpl in *).

Lemma strip_prefix_spec p s r :
  strip_prefix p s = Some r ↔ s = p +:+ r.
Proof.
  revert s; induction p as [|a p IH]; intros s; simpl.
  - split; [intros [= ->]; reflexivity | intros ->; reflexivity].
  - destruct s as [|b s]; [split; discriminate|].
    destruct (Ascii.eqb_spec a b) as [->|Hne].
    + rewrite IH. split; [intros ->; reflexivity | intros [= ->]; reflexivity].
    + split; [discriminate | intros [= ? _]; congruence].
Qed.

Lemma strip_prefix_none p s :
  strip_prefix p s = None ↔ ¬ starts_with p s.
Proof.
  split.
  - intros Hn [r Hr]. apply strip_prefix_spec in Hr. congruence.
  - intros Hn. destruct (strip_prefix p s) as [r|] eqn:E; [|reflexivity].
    exfalso; apply Hn. exists r. by apply strip_prefix_spec.
Qed.







Lemma tail_is_dot_ts_spec s :
  tail_is_dot_ts s = true ↔ ∃ stem, s = stem +:+ ".ts" ∧ no_dot stem = true.
Proof.
  induction s as [|c s IH]; simpl.
  - split; [discriminate | intros ([|? ?] & H & _); discriminate].
  - destruct (Ascii.eqb_spec c ".") as [->|Hne].
    + rewrite String.eqb_eq. split.
      * intros ->. by exists "".
      * intros ([|c' stem] & H & Hd); string_simpl.
        -- congruence.
        -- injection H as <- _. discriminate.
    + rewrite IH. split.
      * intros (stem & -> & Hd). exists (String c stem). split; [done|].
        simpl. rewrite Hd. by destruct (Ascii.eqb_spec c ".").
      * intros ([|c' stem] & H & Hd); string_simpl.
        -- injection H as -> _. congruence.
        -- injection H as -> ->. exists stem. split; [done|].
           by apply andb_true_iff in Hd as [_ ?].
Qed.

(** A recognised source file: a non-empty stem without a dot, then
    [.ts]. *)
Lemma is_source_file_spec f :
  is_source_file f = true
  ↔ ∃ stem, f = stem +:+ ".ts" ∧ stem ≠ "" ∧ no_dot stem = true.
Proof.
  destruct f as [|c r]; simpl.
  - split; [discriminate | intros ([|? ?] & H & ? & _); [done | discriminate]].
  - rewrite andb_true_iff, tail_is_dot_ts_spec. split.
    + intros (Hc & stem & -> & Hd). exists (String c stem).
      repeat split; [done|]. simpl. by rewrite Hc, Hd.
    + intros ([|c' stem] & H & Hne & Hd); [done|].
      string_simpl. injection H as -> ->.
      apply andb_true_iff in Hd as [? ?]. eauto.
Qed.

Lemma is_source_file_nonempty f : is_source_file f = true → f ≠ "".
Proof. by destruct f. Qed.

(** ** The externality predicate *)

Lemma first_is_spec c s : first_is c s = true ↔ ∃ r, s = String c r.
Proof.
  destruct s as [|c' r]; simpl.
  - split; [discriminate | intros [? ?]; discriminate].
  - destruct (Ascii.eqb_spec c' c) as [->|Hne].
    + split; [eauto|done].
    + split; [discriminate | intros [? [= ? _]]; congruence].
Qed.

Lemma path_like_spec id :
  path_like id = true
  ↔ starts_with "/" id ∨ starts_with "./" id ∨ drive_style id.
Proof.
  destruct id as [|c r]; simpl.
  - split; [discriminate|].
    intros [[? ?]|[[? ?]|(? & ? & ? & _)]]; discriminate.
  - rewrite !orb_true_iff, !andb_true_iff, !first_is_spec, Ascii.eqb_eq.
    unfold starts_with, drive_style. split.
    + intros [[->|[Hc [r' ->]]]|[Hw [r' ->]]].
      * left. by exists r.
      * apply Ascii.eqb_eq in Hc as ->. right; left. by exists r'.
      * right; right. by exists c, r'.
    + intros [[r' [= -> ->]]|[[r' [= -> ->]]|(c' & r' & [= -> ->] & Hw)]].
      * left; by left.
      * left; right. split; [done|by exists r'].
      * right. split; [done|by exists r'].
Qed.

(** C2 (amended).  The externality predicate returns false when the
    specifier starts with "./" or "/" or is drive-style, returns false
    too when it is the runtime-support helper "tslib", and returns true
    for every other specifier that does not start with a dot. *)
Theorem external_classification (id : string) :
  (starts_with "./" id ∨ starts_with "/" id ∨ drive_style id →
   external id = false)
  ∧ (id = "tslib" → external id = false)
  ∧ (id ≠ "tslib" → ¬ starts_with "." id → ¬ starts_with "/" id →
     ¬ drive_style id → external id = true).
Proof.
  unfold external. repeat split.
  - intros H. assert (path_like id = true) as ->
      by (apply path_like_spec; tauto).
    by rewrite andb_false_r.
  - by intros ->.
  - intros Hts Hdot Hsl Hdr.
    destruct (String.eqb_spec id "tslib") as [?|_]; [done|].
    destruct (path_like id) eqn:E; [|done].
    apply path_like_spec in E as [?|[[r ->]|?]]; [done| |done].
    exfalso. apply Hdot. by exists (String "/" r).
Qed.

Lemma external_classification_witness :
  external "./view" = false
  ∧ external "tslib" = false
  ∧ external "lezer-tree" = true.
Proof.
  split; [|split].
  - apply (proj1 (external_classification "./view")). left. by exists "view".
  - by apply (proj1 (proj2 (external_classification "tslib"))).
  - apply (proj2 (proj2 (external_classification "lezer-tree"))).
    + discriminate.
    + intros [r H]; discriminate.
    + intros [r H]; discriminate.
    + intros (c & r & H & _); discriminate.
Defined.

(** C2 as stated fails: for the runtime-support helper the predicate
    does not return true. *)
Lemma external_tslib_not_true : external "tslib" ≠ true.
Proof. discriminate. Qed.

(** A specifier that climbs to the parent directory is external. *)
Example external_parent_relative : external "../util" = true.
Proof. reflexivity. Qed.

(** ** Running [Proc] actions *)

Lemma world_eta w : {| events := events w; clock := clock w |} = w.
Proof. by destruct w. Qed.

Lemma run_bind {A B} (m : Proc A) (f : A → Proc B) w :
  (m ≫= f) w =
  match m w with
  | (Ret a, w') => f a w'
  | (Exit s, w') => (Exit s, w')
  | (Throw e, w') => (Throw e, w')
  end.
Proof. reflexivity. Qed.

Lemma run_perform e w :
  perform e w = (Ret (), {| events := events w ++ [e]; clock := clock w |}).
Proof. reflexivity. Qed.

Lemma for_of_nil {A} (f : A → Proc unit) w : for_of f [] w = (Ret (), w).
Proof. reflexivity. Qed.

Lemma for_of_cons {A} (f : A → Proc unit) x l w :
  for_of f (x :: l) w = (f x ;; for_of f l) w.
Proof. reflexivity. Qed.

(** A loop that only prints. *)
Lemma for_of_console {A} (lvl : Level) (g : A → string) (l : list A) w :
  for_of (λ x, console lvl (Text (g x))) l w
  = (Ret (), {| events := events w ++ List.map (λ x, Console lvl (Text (g x))) l;
                clock := clock w |}).
Proof.
  revert w; induction l as [|x l IH]; intros w.
  - rewrite for_of_nil. simpl. by rewrite app_nil_r, world_eta.
  - rewrite for_of_cons, run_bind. unfold console at 1. rewrite run_perform.
    rewrite IH. simpl. by rewrite <- app_assoc.
Qed.

(** ** The compile stage *)

Lemma tsBuild_run node ts reg w :
  tsBuild node ts reg w
  = (if emitSkipped (emit (batch_program node ts reg)) then Exit 1 else Ret (),
     {| events := events w ++ tsBuild_events ts (batch_program node ts reg);
        clock := clock w |}).
Proof.
  unfold tsBuild, tsBuild_events, printed_diagnostics.
  set (program := batch_program node ts reg).
  rewrite run_bind, run_perform, run_bind, for_of_console. simpl.
  destruct (emitSkipped (emit program)); simpl.
  - unfold error. rewrite run_bind. unfold console. rewrite run_perform.
    unfold exit. simpl. f_equal. f_equal.
    rewrite <- !app_assoc. reflexivity.
  - unfold mret, Proc_ret. f_equal. f_equal.
    rewrite <- !app_assoc. simpl. by rewrite app_nil_r.
Qed.

(** C3.  The batch compile stage fails, with a fatal message and exit
    status 1, exactly when the emit was skipped; otherwise it returns
    normally.  In both cases every pre-emit and emit diagnostic has been
    printed. *)
Theorem tsBuild_fails_iff_emit_skipped node ts reg w :
  let program := batch_program node ts reg in
  let run := tsBuild node ts reg w in
  (emitSkipped (emit program) = true ↔ run.1 = Exit 1)
  ∧ (emitSkipped (emit program) = false ↔ run.1 = Ret ())
  ∧ (emitSkipped (emit program) = true →
     events run.2 = events w ++ TsEmit true :: printed_diagnostics ts program
                    ++ [Console Err (Text "TS build failed")])
  ∧ (emitSkipped (emit program) = false →
     events run.2 = events w ++ TsEmit false :: printed_diagnostics ts program).
Proof.
  intros program run. subst run. rewrite tsBuild_run. fold program.
  unfold tsBuild_events. simpl.
  destruct (emitSkipped (emit program)); simpl; repeat split; try done.
  intros _. by rewrite app_nil_r.
Qed.

Lemma tsBuild_fails_iff_emit_skipped_witness :
  (tsBuild demo_node (a_ts true) (registry_of demo_node) start_world).1 = Exit 1
  ∧ (tsBuild demo_node (a_ts false) (registry_of demo_node) start_world).1 = Ret ().
Proof.
  split.
  - by apply (tsBuild_fails_iff_emit_skipped demo_node (a_ts true)
                (registry_of demo_node) start_world).
  - by apply (tsBuild_fails_iff_emit_skipped demo_node (a_ts false)
                (registry_of demo_node) start_world).
Defined.

(** ** The package registry *)

Lemma run_Res_bind {A B} (m : Res A) (f : A → Res B) :
  (m ≫= f) = match m with Ok a => f a | Raise e => Raise e end.
Proof. reflexivity. Qed.

Lemma mapM_Res_cons {A B} (f : A → Res B) x l :
  mapM f (x :: l) = (y ← f x; k ← mapM f l; Ok (y :: k)).
Proof. reflexivity. Qed.

Lemma mapM_Res_Ok {A B} (f : A → Res B) l k :
  mapM f l = Ok k ↔ Forall2 (λ x y, f x = Ok y) l k.
Proof.
  revert k; induction l as [|x l IH]; intros k.
  - split.
    + intros [= <-]. constructor.
    + intros H. by inversion H.
  - rewrite mapM_Res_cons, !run_Res_bind. split.
    + destruct (f x) as [y|e] eqn:Ex; [|discriminate].
      rewrite run_Res_bind.
      destruct (mapM f l) as [k'|e] eqn:El; [|discriminate].
      intros [= <-]. constructor; [done|]. by apply IH.
    + intros H. inversion H as [|? y ? k' Hx Hl]; subst.
      rewrite Hx, run_Res_bind. apply IH in Hl. by rewrite Hl.
Qed.

(** The first constructor that throws aborts the whole map. *)
Lemma mapM_Res_Raise {A B} (f : A → Res B) l x e :
  x ∈ l → f x = Raise e → ∃ e', mapM f l = Raise e'.
Proof.
  induction l as [|y l IH]; intros Hin Hx; [by apply elem_of_nil in Hin|].
  rewrite mapM_Res_cons, run_Res_bind.
  destruct (f y) as [b|e'] eqn:Ey; [|eauto].
  apply elem_of_cons in Hin as [->|Hin]; [congruence|].
  destruct (IH Hin Hx) as [e' ->]. rewrite run_Res_bind. eauto.
Qed.


Section RegistryFacts.
Context (node : Node).

Lemma new_Pkg_legacy :
  new_Pkg node "legacy-modes"
  = Ok {| name := "legacy-modes";
          dir := path_join node [root node; "legacy-modes"];
          main := None |}.
Proof. reflexivity. Qed.

(** The constructor on a package whose directory it reads. *)
Lemma new_Pkg_reads nm entries :
  nm ≠ "legacy-modes" →
  readdirSync node (src_of node nm) = Ok entries →
  new_Pkg node nm =
    match main_script nm (List.filter is_source_file entries) with
    | Some f =>
        if String.eqb f ""
        then Raise (Error ("Couldn't find a main script for " +:+ nm))
        else Ok (with_main node nm f)
    | None => Raise (Error ("Couldn't find a main script for " +:+ nm))
    end.
Proof.
  intros Hne Hdir. unfold new_Pkg.
  destruct (String.eqb_spec nm "legacy-modes") as [?|_]; [done|]. simpl.
  fold (src_of node nm). by rewrite Hdir, run_Res_bind.
Qed.

Lemma new_Pkg_name nm p :
  new_Pkg node nm = Ok p →
  name p = nm ∧ dir p = path_join node [root node; nm].
Proof.
  unfold new_Pkg.
  destruct (negb (String.eqb nm "legacy-modes")); [|by intros [= <-]].
  rewrite run_Res_bind.
  destruct (readdirSync node _) as [entries|]; [|done].
  destruct (main_script _ _) as [f|]; [|done].
  destruct (String.eqb f ""); [done|]. by intros [= <-].
Qed.


(** [packageNames] after the loop over [pkgs], started from [m]: the
    last package of a name wins. *)
Lemma index_fold (pkgs : list Pkg) (m : gmap string Pkg) (id : string) :
  (foldl (λ m p, <[name p := p]> m) m pkgs !! id = m !! id
   ∧ ∀ q, q ∈ pkgs → name q ≠ id)
  ∨ (∃ q, q ∈ pkgs ∧ name q = id
          ∧ foldl (λ m p, <[name p := p]> m) m pkgs !! id = Some q).
Proof.
  revert m; induction pkgs as [|p pkgs IH]; intros m; simpl.
  - left. split; [done|]. intros q Hq. by apply elem_of_nil in Hq.
  - destruct (IH (<[name p := p]> m)) as [[Heq Hno]|(q & Hq & Hn & Hl)].
    + destruct (decide (name p = id)) as [Hp|Hp].
      * right. exists p. split; [by left|]. split; [done|].
        rewrite Heq, <- Hp. apply lookup_insert_eq.
      * left. split.
        -- rewrite Heq. by apply lookup_insert_ne.
        -- intros q [->|Hq]%elem_of_cons; auto.
    + right. exists q. split; [by right|]. done.
Qed.

Lemma index_by_name_Some pkgs id p :
  index_by_name pkgs !! id = Some p → p ∈ pkgs ∧ name p = id.
Proof.
  unfold index_by_name.
  destruct (index_fold pkgs ∅ id) as [[Heq _]|(q & Hq & Hn & Hl)].
  - rewrite Heq, lookup_empty. discriminate.
  - rewrite Hl. by intros [= <-].
Qed.

Lemma index_by_name_elem pkgs p :
  p ∈ pkgs →
  ∃ q, q ∈ pkgs ∧ name q = name p ∧ index_by_name pkgs !! name p = Some q.
Proof.
  intros Hp. unfold index_by_name.
  destruct (index_fold pkgs ∅ (name p)) as [[_ Hno]|H]; [|done].
  by destruct (Hno p Hp).
Qed.

Context (reg : Registry) (Hreg : load_registry node = Ok reg).

Lemma load_registry_inv :
  Forall2 (λ nm p, new_Pkg node nm = Ok p)
    (core_names ++ nonCore_names) (packages reg)
  ∧ buildPackages reg = List.filter (λ p, truthy (main p)) (packages reg)
  ∧ packageNames reg = index_by_name (packages reg).
Proof.
  revert Hreg. unfold load_registry. rewrite run_Res_bind.
  destruct (mapM (new_Pkg node) core_names) as [core|] eqn:Ec; [|done].
  rewrite run_Res_bind.
  destruct (mapM (new_Pkg node) nonCore_names) as [nonCore|] eqn:En; [|done].
  intros [= <-]. cbn [packages buildPackages packageNames]. split; [|done].
  apply Forall2_app; by apply mapM_Res_Ok.
Qed.

(** Every registered package is the one its constructor builds. *)
Lemma packages_built p :
  p ∈ packages reg →
  name p ∈ core_names ++ nonCore_names ∧ new_Pkg node (name p) = Ok p.
Proof.
  intros Hp. destruct load_registry_inv as (HF & _ & _).
  revert Hp. induction HF as [|nm q names pkgs Hq HF IH].
  - intros Hp. by apply elem_of_nil in Hp.
  - intros [->|Hp]%elem_of_cons.
    + destruct (new_Pkg_name _ _ Hq) as [-> _]. split; [by left|done].
    + destruct (IH Hp). split; [by right|done].
Qed.

(** Every declared name is registered. *)
Lemma names_registered nm :
  nm ∈ core_names ++ nonCore_names →
  ∃ p, new_Pkg node nm = Ok p ∧ p ∈ packages reg.
Proof.
  destruct load_registry_inv as (HF & _ & _).
  induction HF as [|nm' q names pkgs Hq HF IH].
  - intros H. by apply elem_of_nil in H.
  - intros [->|Hin]%elem_of_cons.
    + exists q. split; [done|by left].
    + destruct (IH Hin) as (p & ? & ?). exists p. split; [done|by right].
Qed.

(** The name index finds a package exactly under its own name. *)
Lemma packageNames_lookup id p :
  packageNames reg !! id = Some p ↔ p ∈ packages reg ∧ name p = id.
Proof.
  destruct load_registry_inv as (_ & _ & ->). split.
  - apply index_by_name_Some.
  - intros [Hp <-].
    destruct (index_by_name_elem _ _ Hp) as (q & Hq & Hn & ->).
    f_equal.
    destruct (packages_built _ Hq) as [_ Hbq].
    destruct (packages_built _ Hp) as [_ Hbp].
    rewrite Hn in Hbq. congruence.
Qed.

Lemma packageNames_of_name nm p :
  nm ∈ core_names ++ nonCore_names →
  new_Pkg node nm = Ok p →
  packageNames reg !! nm = Some p.
Proof.
  intros Hin Hp. destruct (names_registered nm Hin) as (q & Hq & Hqin).
  assert (q = p) as -> by congruence.
  apply packageNames_lookup. split; [done|].
  by destruct (new_Pkg_name _ _ Hp).
Qed.
End RegistryFacts.

(** A constructor that throws is an uncaught exception of the script:
    nothing has been printed or built, and [start] has not run. *)
Lemma load_registry_Raise node nm e :
  nm ∈ core_names ++ nonCore_names →
  new_Pkg node nm = Raise e →
  ∃ e', load_registry node = Raise e'.
Proof.
  intros Hin Hnm. unfold load_registry. rewrite run_Res_bind.
  apply elem_of_app in Hin as [Hin|Hin].
  - destruct (mapM_Res_Raise _ _ _ _ Hin Hnm) as [e' ->]. eauto.
  - destruct (mapM (new_Pkg node) core_names); [|eauto].
    destruct (mapM_Res_Raise _ _ _ _ Hin Hnm) as [e' ->]. eauto.
Qed.

Lemma cm_uncaught node ts rl http git e w :
  load_registry node = Raise e →
  cm node ts rl http git w = (Throw e, w).
Proof. intros H. unfold cm. by rewrite run_bind, H. Qed.

(** *** Choice of the main script *)

Lemma picks_intro node nm f :
  new_Pkg node nm = Ok (with_main node nm f) → picks node nm f.
Proof.
  intros H. split; [done|]. intros reg Hreg Hin.
  by apply (packageNames_of_name node reg Hreg).
Qed.

Lemma fails_on_intro node nm :
  new_Pkg node nm = Raise (Error ("Couldn't find a main script for " +:+ nm)) →
  fails_on node nm.
Proof.
  intros H. split; [done|]. intros Hin.
  destruct (load_registry_Raise node nm _ Hin H) as [e He].
  split; [eauto|]. intros ts rl http git w. exists e. by apply cm_uncaught.
Qed.

Lemma includes_true x l : includes x l = true ↔ x ∈ l.
Proof. unfold includes. apply bool_decide_eq_true. Qed.

Lemma includes_false x l : includes x l = false ↔ x ∉ l.
Proof. unfold includes. apply bool_decide_eq_false. Qed.

(** C5 (amended).  For every package other than [legacy-modes] whose
    source directory holds exactly one recognised source file, the
    constructor and the registry pick that file as the main script,
    whatever its name. *)
Theorem single_source_file_is_main node nm entries f :
  nm ≠ "legacy-modes" →
  readdirSync node (src_of node nm) = Ok entries →
  List.filter is_source_file entries = [f] →
  picks node nm f.
Proof.
  intros Hne Hdir Hf. apply picks_intro.
  rewrite (new_Pkg_reads node nm entries Hne Hdir), Hf.
  unfold main_script. simpl.
  assert (is_source_file f = true) as Hsrc.
  { assert (In f (List.filter is_source_file entries)) as Hin
      by (rewrite Hf; by left).
    by apply filter_In in Hin as [_ ?]. }
  apply is_source_file_nonempty in Hsrc.
  by destruct (String.eqb_spec f "").
Qed.

Lemma single_source_file_is_main_witness :
  picks demo_node "state" "state.ts".
Proof.
  apply (single_source_file_is_main demo_node "state" ["state.ts"] "state.ts").
  - discriminate.
  - reflexivity.
  - reflexivity.
Defined.

(** C5 as stated fails on [legacy-modes], whose constructor does not
    read the source directory: with a single source file there, the
    package still has no main script. *)
Lemma single_source_file_legacy_modes :
  ¬ (∀ node nm entries f,
       readdirSync node (src_of node nm) = Ok entries →
       List.filter is_source_file entries = [f] →
       ∃ p, new_Pkg node nm = Ok p
            ∧ main p = Some (path_join node [dir p; "src"; f])).
Proof.
  intros H.
  destruct (H single_node "legacy-modes" ["mode.ts"] "mode.ts"
              eq_refl eq_refl) as (p & Hp & Hm).
  rewrite new_Pkg_legacy in Hp. injection Hp as <-. discriminate.
Qed.




(** ** Module resolution *)

Lemma buildPackages_buildable node reg pkg :
  load_registry node = Ok reg →
  pkg ∈ buildPackages reg → pkg ∈ packages reg ∧ buildable pkg.
Proof.
  intros Hreg. destruct (load_registry_inv node reg Hreg) as (_ & -> & _).
  rewrite !list_elem_of_In, filter_In. intros [Hin Ht]. split; [done|].
  unfold buildable. by destruct (main pkg).
Qed.





(** The hook on the imports of a source file of the demo checkout: a
    registered sibling, a sibling whose name has a hyphen, which is not
    matched by the pattern, and a library. *)
Example customResolve_demo :
  List.map (resolve_name (a_ts false) (registry_of demo_node)
              (createCompilerHost (a_ts false) []) "/cm/view/src/index.ts" [])
    ["@codemirror/state"; "@codemirror/lang-python"; "style-mod"]
  = [ Some {| resolvedFileName := Some "/cm/bin/../state/src/state.ts";
              isExternalLibraryImport := false |};
      Some {| resolvedFileName :=
                Some "/cm/node_modules/@codemirror/lang-python/index.d.ts";
              isExternalLibraryImport := true |};
      Some {| resolvedFileName := Some "/cm/node_modules/style-mod/index.d.ts";
              isExternalLibraryImport := true |} ].
Proof. vm_compute. reflexivity. Qed.

(** ** Warnings of the declaration bundles *)

Lemma decl_onwarn_expected w warn :
  expected_in_declarations w → decl_onwarn w warn = mret ().
Proof.
  unfold decl_onwarn. intros [H|H]; rewrite H; [done|].
  by rewrite andb_false_r.
Qed.

Lemma decl_onwarn_other w warn :
  ¬ expected_in_declarations w → decl_onwarn w warn = warn w.
Proof.
  unfold decl_onwarn, expected_in_declarations. intros H.
  rewrite !bool_decide_eq_false_2; [done| |]; tauto.
Qed.

Lemma exit_is_not_ret : (exit 1 : Proc unit) ≠ mret ().
Proof.
  intros H. apply (f_equal (λ m, (m start_world).1)) in H. discriminate.
Qed.

(** C8.  The warning handler of a declaration bundle suppresses a
    warning exactly when its code is CIRCULAR_DEPENDENCY or
    UNUSED_EXTERNAL_IMPORT, and surfaces every other warning. *)
Theorem decl_onwarn_suppresses_expected node pkg config (w : Warning) :
  rollupDeclConfig node pkg = Ok config →
  ∃ f, onwarn config = Some f
       ∧ (suppressed f w ↔ expected_in_declarations w)
       ∧ (surfaced f w ↔ ¬ expected_in_declarations w).
Proof.
  unfold rollupDeclConfig. rewrite run_Res_bind.
  destruct (main_as ".d.ts" pkg) as [i|]; [|done].
  intros [= <-]. exists decl_onwarn. split; [done|].
  assert (expected_in_declarations w ∨ ¬ expected_in_declarations w)
    as [He|He] by (unfold expected_in_declarations;
                   destruct (decide (code w = Some "CIRCULAR_DEPENDENCY"));
                   destruct (decide (code w = Some "UNUSED_EXTERNAL_IMPORT"));
                   tauto).
  - split; split.
    + done.
    + intros _ warn. by apply decl_onwarn_expected.
    + intros Hs _. apply exit_is_not_ret.
      pose proof (Hs (λ _, exit 1)) as H. simpl in H.
      rewrite <- H. by apply decl_onwarn_expected.
    + done.
  - split; split.
    + intros Hs. exfalso. apply exit_is_not_ret.
      rewrite <- (Hs (λ _, exit 1)). symmetry.
      by apply (decl_onwarn_other w (λ _, exit 1)).
    + done.
    + done.
    + intros _ warn. by apply decl_onwarn_other.
Qed.

Lemma decl_onwarn_suppresses_expected_witness :
  ∃ f, onwarn {| input := "/cm/bin/../state/src/state.d.ts";
                 cfg_external := external;
                 output := {| format := "esm";
                              file := "/cm/bin/../state/dist/index.d.ts";
                              sourcemap := false;
                              externalLiveBindings := None |};
                 plugins := [dts];
                 onwarn := Some decl_onwarn |} = Some f
       ∧ (suppressed f {| code := Some "EMPTY_BUNDLE"; message := "" |}
          ↔ expected_in_declarations {| code := Some "EMPTY_BUNDLE"; message := "" |})
       ∧ (surfaced f {| code := Some "EMPTY_BUNDLE"; message := "" |}
          ↔ ¬ expected_in_declarations {| code := Some "EMPTY_BUNDLE"; message := "" |}).
Proof.
  apply (decl_onwarn_suppresses_expected demo_node
           {| name := "state"; dir := "/cm/bin/../state";
              main := Some "/cm/bin/../state/src/state.ts" |}).
  reflexivity.
Defined.

(** ** The batch build *)

Lemma bind_Ret {A B} (m : Proc A) (f : A → Proc B) w a w' :
  m w = (Ret a, w') → (m ≫= f) w = f a w'.
Proof. intros H. by rewrite run_bind, H. Qed.

Lemma bind_Exit {A B} (m : Proc A) (f : A → Proc B) w s w' :
  m w = (Exit s, w') → (m ≫= f) w = (Exit s, w').
Proof. intros H. by rewrite run_bind, H. Qed.

Lemma bind_Throw {A B} (m : Proc A) (f : A → Proc B) w e w' :
  m w = (Throw e, w') → (m ≫= f) w = (Throw e, w').
Proof. intros H. by rewrite run_bind, H. Qed.

Lemma extends_ret {A} (a : A) : extends (mret a : Proc A).
Proof. intros w. exists []. simpl. by rewrite app_nil_r. Qed.

Lemma extends_exit {A} s : extends (exit s : Proc A).
Proof. intros w. exists []. simpl. by rewrite app_nil_r. Qed.

Lemma extends_throw {A} e : extends (throw e : Proc A).
Proof. intros w. exists []. simpl. by rewrite app_nil_r. Qed.

Lemma extends_perform e : extends (perform e).
Proof. intros w. by exists [e]. Qed.

Lemma extends_now node : extends (now node).
Proof. intros w. exists []. simpl. by rewrite app_nil_r. Qed.

Lemma extends_lift {A} (r : Res A) : extends (lift r).
Proof. destruct r; [apply extends_ret | apply extends_throw]. Qed.

Lemma extends_bind {A B} (m : Proc A) (f : A → Proc B) :
  extends m → (∀ a, extends (f a)) → extends (m ≫= f).
Proof.
  intros Hm Hf w. rewrite run_bind. destruct (Hm w) as [evs Hevs].
  destruct (m w) as [[a|s|e] w']; simpl in *; [|by exists evs..].
  destruct (Hf a w') as [evs' Hevs']. exists (evs ++ evs').
  by rewrite Hevs', Hevs, app_assoc.
Qed.

Lemma extends_catch {A} (m : Proc A) (h : JsError → Proc A) :
  extends m → (∀ e, extends (h e)) → extends (catch m h).
Proof.
  intros Hm Hh w. unfold catch. destruct (Hm w) as [evs Hevs].
  destruct (m w) as [[a|s|e] w']; simpl in *; [by exists evs..|].
  destruct (Hh e w') as [evs' Hevs']. exists (evs ++ evs').
  by rewrite Hevs', Hevs, app_assoc.
Qed.

Lemma extends_for_of {A} (f : A → Proc unit) l :
  (∀ x, extends (f x)) → extends (for_of f l).
Proof.
  intros Hf. induction l as [|x l IH]; [apply extends_ret|].
  apply extends_bind; [apply Hf | intros _; apply IH].
Qed.

Lemma extends_console l v : extends (console l v).
Proof. apply extends_perform. Qed.

Create HintDb extends.
#[local] Hint Resolve extends_ret extends_exit extends_throw extends_perform
  extends_console extends_now extends_lift : extends.

(** Splits a sequence of actions and closes the atomic ones. *)
Ltac extends_steps :=
  repeat first
    [ solve [auto with extends]
    | apply extends_bind; [|intros ?]
    | apply extends_catch; [|intros ?]
    | apply extends_for_of; intros ?
    | progress cbv zeta ].

Lemma extends_writeFile node path data : extends (writeFile node path data).
Proof.
  unfold writeFile. destruct data; [|extends_steps].
  destruct (writeFile_error node path); extends_steps.
Qed.

Lemma extends_mkdir node d : extends (mkdir node d).
Proof. unfold mkdir. destruct (mkdir_error node d); extends_steps. Qed.

#[local] Hint Resolve extends_writeFile extends_mkdir : extends.

Lemma extends_write_output node d f : extends (write_output node d f).
Proof. unfold write_output. extends_steps. destruct (map f); extends_steps. Qed.

#[local] Hint Resolve extends_write_output : extends.

Lemma extends_run_config node rl config : extends (run_config node rl config).
Proof. unfold run_config. extends_steps. Qed.

#[local] Hint Resolve extends_run_config : extends.

Lemma extends_bundle_stage node rl reg : extends (bundle_stage node rl reg).
Proof. unfold bundle_stage, runRollup. extends_steps. Qed.

#[local] Hint Resolve extends_bundle_stage : extends.

Lemma printed_diagnostics_no_bundle ts program :
  Forall (λ e, bundle_event e = false) (printed_diagnostics ts program).
Proof. unfold printed_diagnostics. apply Forall_forall. intros e Hin.
  apply list_elem_of_In, in_map_iff in Hin as (d & <- & _). done. Qed.

(** C6.  The events of a batch build start with those of the compile
    stage, up to its fatal message, none of which is an event of the
    bundle stage; the events of the bundle stage all come after them;
    and when the emit was skipped nothing comes after them: the build
    exits with status 1. *)
Theorem build_compiles_before_bundling node ts rl reg w :
  let program := batch_program node ts reg in
  let compile_events :=
    Console Info (Text "Running TypeScript compiler...")
    :: tsBuild_events ts program in
  ∃ rest,
    events (build node ts rl reg w).2 = events w ++ compile_events ++ rest
    ∧ Forall (λ e, bundle_event e = false) compile_events
    ∧ (emitSkipped (emit program) = true →
       rest = [] ∧ (build node ts rl reg w).1 = Exit 1).
Proof.
  intros program compile_events.
  assert (Forall (λ e, bundle_event e = false) compile_events) as Hc.
  { subst compile_events. unfold tsBuild_events.
    constructor; [done|]. constructor; [done|].
    apply Forall_app. split; [apply printed_diagnostics_no_bundle|].
    destruct (emitSkipped (emit program)); by repeat constructor. }
  unfold build.
  erewrite bind_Ret by reflexivity.
  erewrite bind_Ret by reflexivity.
  destruct (emitSkipped (emit program)) eqn:Hs.
  - erewrite bind_Exit by (rewrite tsBuild_run; fold program; by rewrite Hs).
    exists []. cbn [fst snd events]. split; [|done].
    subst compile_events. by rewrite app_nil_r, <- app_assoc.
  - erewrite bind_Ret by (rewrite tsBuild_run; fold program; by rewrite Hs).
    match goal with
    | |- context [ (?m ≫= ?f) ?w1 ] =>
        assert (extends (m ≫= f)) as Hext; [|destruct (Hext w1) as [rest Hrest]]
    end.
    { extends_steps. }
    exists rest. split; [|done].
    rewrite Hrest. cbn [events]. subst compile_events.
    by rewrite <- !app_assoc.
Qed.

Lemma build_compiles_before_bundling_witness :
  (build demo_node (a_ts true) demo_rollup (registry_of demo_node)
     start_world).1 = Exit 1.
Proof.
  destruct (build_compiles_before_bundling demo_node (a_ts true) demo_rollup
              (registry_of demo_node) start_world) as (rest & _ & _ & H).
  by apply H.
Defined.

(** ** The dev server *)

Lemma listener_answers http serve req :
  answers http serve req (listener http serve req).
Proof.
  unfold answers, listener.
  destruct (moduleserver http serve 2 req) as [r|].
  - split; [by intros ? [= <-]|]. split; discriminate.
  - split; [discriminate|].
    destruct (serveStatic http serve req) as [r|].
    + split; [by intros _ ? [= <-]|]. discriminate.
    + split; [discriminate|done].
Qed.

(** C9 (amended).  The dev server listens on port 8090, on the loopback
    address when OPEN is unset or set to the empty string, and on all
    interfaces when OPEN is set to a non-empty value; its listener
    answers with the module server first, then with the static file
    server, then with a 404. *)
Theorem startServer_listens node http w :
  let serve := path_join node [root node; "demo"] in
  ∃ host,
    startServer node http w
    = (Ret (), add w [ Listen 8090 host (listener http serve);
                       Console Log (Text "Dev server listening on 8090") ])
    ∧ (env node "OPEN" = None ∨ env node "OPEN" = Some "" →
       host = Some "127.0.0.1")
    ∧ (∀ v, env node "OPEN" = Some v → v ≠ "" → host = None)
    ∧ ∀ req, answers http serve req (listener http serve req).
Proof.
  intros serve.
  exists (if truthy (env node "OPEN") then None else Some "127.0.0.1").
  split; [|split; [|split]].
  - unfold startServer. fold serve.
    erewrite bind_Ret by reflexivity.
    unfold console, add. rewrite run_perform. simpl.
    by rewrite <- app_assoc.
  - by intros [-> | ->].
  - intros v -> Hv. simpl. by destruct (String.eqb_spec v "").
  - intros req. apply listener_answers.
Qed.

Lemma startServer_listens_witness :
  ∃ host,
    startServer open_node demo_http start_world
    = (Ret (), add start_world
                 [ Listen 8090 host (listener demo_http "/cm/bin/../demo");
                   Console Log (Text "Dev server listening on 8090") ])
    ∧ (env open_node "OPEN" = None ∨ env open_node "OPEN" = Some "" →
       host = Some "127.0.0.1")
    ∧ (∀ v, env open_node "OPEN" = Some v → v ≠ "" → host = None)
    ∧ ∀ req, answers demo_http "/cm/bin/../demo" req
               (listener demo_http "/cm/bin/../demo" req).
Proof. apply (startServer_listens open_node demo_http start_world). Defined.

(** C9 as stated fails when OPEN is set to the empty string: the server
    still listens on the loopback address only. *)
Lemma startServer_open_empty :
  ¬ (∀ node http w,
       is_Some (env node "OPEN") →
       ∃ l, Listen 8090 None l ∈ events (startServer node http w).2).
Proof.
  intros H.
  destruct (H open_empty_node demo_http start_world) as [l Hl].
  - by exists "".
  - vm_compute in Hl.
    apply elem_of_cons in Hl as [Hl|Hl]; [discriminate|].
    apply elem_of_cons in Hl as [Hl|Hl]; [discriminate|].
    by apply elem_of_nil in Hl.
Qed.

(** ** Command dispatch *)

(** The check of one package in [assertInstalled]. *)
Lemma for_of_installed node (l : list Pkg) w :
  let check := λ p : Pkg,
    if negb (existsSync node (dir p))
    then console Err (Text ("module " +:+ name p +:+
           " is missing. Did you forget to run 'cm install'?")) ;; exit 1
    else mret () in
  ((∀ p, p ∈ l → existsSync node (dir p) = true) →
   for_of check l w = (Ret (), w))
  ∧ ((∃ p, p ∈ l ∧ existsSync node (dir p) = false) →
     ∃ q, q ∈ l ∧ existsSync node (dir q) = false
          ∧ for_of check l w = (Exit 1, add w [missing_message q])).
Proof.
  intros check. induction l as [|p l [IHok IHmiss]].
  - split; [done|]. intros (p & Hp & _). by apply elem_of_nil in Hp.
  - split.
    + intros Hall. rewrite for_of_cons.
      erewrite bind_Ret; [apply IHok|].
      * intros q Hq. apply Hall. by right.
      * unfold check. rewrite Hall; [done|by left].
    + intros Hmiss. rewrite for_of_cons.
      destruct (existsSync node (dir p)) eqn:Hp.
      * destruct IHmiss as (q & Hq & Hqm & Hrun).
        { destruct Hmiss as (p' & [->|Hin]%elem_of_cons & Hm);
            [congruence|eauto]. }
        exists q. split; [by right|]. split; [done|].
        erewrite bind_Ret; [apply Hrun|]. unfold check. by rewrite Hp.
      * exists p. split; [by left|]. split; [done|].
        erewrite bind_Exit; [done|]. unfold check. rewrite Hp. simpl.
        by erewrite bind_Ret by reflexivity.
Qed.

Lemma assertInstalled_passes node reg w :
  (∀ p, p ∈ packages reg → existsSync node (dir p) = true) →
  assertInstalled node reg w = (Ret (), w).
Proof. apply for_of_installed. Qed.

Lemma assertInstalled_exits node reg w :
  (∃ p, p ∈ packages reg ∧ existsSync node (dir p) = false) →
  ∃ q, q ∈ packages reg ∧ existsSync node (dir q) = false
       ∧ assertInstalled node reg w = (Exit 1, add w [missing_message q]).
Proof. apply for_of_installed. Qed.

(** C10 (amended).  For every non-empty command other than [install]
    and [--help], [start] first checks that the directory of every
    registered package exists: when one is missing it prints which and
    exits with status 1, and nothing else happens; when none is missing
    it goes on to the dispatch of the command.  For [install] and
    [--help] it goes to the dispatch without the check. *)
Theorem start_checks_installation node ts rl http git reg command w :
  argv node !! 2%nat = Some command →
  (command ≠ "" → command ≠ "install" → command ≠ "--help" →
   ((∃ p, p ∈ packages reg ∧ existsSync node (dir p) = false) →
    ∃ q, q ∈ packages reg ∧ existsSync node (dir q) = false
         ∧ start node ts rl http git reg w
           = (Exit 1, add w [missing_message q]))
   ∧ ((∀ p, p ∈ packages reg → existsSync node (dir p) = true) →
      start node ts rl http git reg w
      = dispatch node ts rl http git reg (Some command) w))
  ∧ (command = "install" ∨ command = "--help" →
     start node ts rl http git reg w
     = dispatch node ts rl http git reg (Some command) w).
Proof.
  intros Hcmd. unfold start. rewrite Hcmd. cbn [truthy default id]. split.
  - intros Hne Hi Hh.
    assert (negb (String.eqb command "")
            && negb (includes command ["install"; "--help"]) = true) as ->.
    { apply andb_true_iff. split.
      - by destruct (String.eqb_spec command "").
      - apply negb_true_iff, includes_false.
        intros Hin.
        apply elem_of_cons in Hin as [->|Hin]; [done|].
        apply elem_of_cons in Hin as [->|Hin]; [done|].
        by apply elem_of_nil in Hin. }
    split.
    + intros Hmiss.
      destruct (assertInstalled_exits node reg w Hmiss) as (q & Hq & Hqm & Hrun).
      exists q. split; [done|]. split; [done|]. by erewrite bind_Exit.
    + intros Hall. erewrite bind_Ret; [done|].
      by apply assertInstalled_passes.
  - intros Hskip.
    assert (includes command ["install"; "--help"] = true) as ->.
    { destruct Hskip as [-> | ->]; reflexivity. }
    rewrite andb_false_r. by erewrite bind_Ret by reflexivity.
Qed.

Lemma start_checks_installation_witness :
  (∃ q, q ∈ packages (registry_of missing_legacy_node)
        ∧ existsSync missing_legacy_node (dir q) = false
        ∧ start missing_legacy_node (a_ts false) demo_rollup demo_http demo_git
            (registry_of missing_legacy_node) start_world
          = (Exit 1, add start_world [missing_message q]))
  ∧ start install_node (a_ts false) demo_rollup demo_http demo_git
      (registry_of install_node) start_world
    = dispatch install_node (a_ts false) demo_rollup demo_http demo_git
        (registry_of install_node) (Some "install") start_world.
Proof.
  split.
  - apply (start_checks_installation missing_legacy_node (a_ts false)
             demo_rollup demo_http demo_git (registry_of missing_legacy_node)
             "build" start_world); [reflexivity|discriminate..|].
    exists {| name := "legacy-modes"; dir := "/cm/bin/../legacy-modes";
              main := None |}.
    split; [|reflexivity].
    apply (list_elem_of_lookup_2 _ 34). vm_compute. reflexivity.
  - apply (start_checks_installation install_node (a_ts false)
             demo_rollup demo_http demo_git (registry_of install_node)
             "install" start_world); [reflexivity|by left].
Defined.

(** C10 as stated fails on the empty command [cm ""]: it is neither
    [install] nor [--help], yet [start] does not check the package
    directories and prints the usage instead of the missing package. *)
Lemma start_empty_command_unchecked :
  ¬ (∀ node ts rl http git reg command w,
       argv node !! 2%nat = Some command →
       command ≠ "install" → command ≠ "--help" →
       (∃ p, p ∈ packages reg ∧ existsSync node (dir p) = false) →
       ∃ q, start node ts rl http git reg w
            = (Exit 1, add w [missing_message q])).
Proof.
  intros H.
  destruct (H empty_command_node (a_ts false) demo_rollup demo_http demo_git
              (registry_of empty_command_node) "" start_world) as [q Hq].
  - reflexivity.
  - discriminate.
  - discriminate.
  - exists {| name := "legacy-modes"; dir := "/cm/bin/../legacy-modes";
              main := None |}.
    split; [|reflexivity].
    apply (list_elem_of_lookup_2 _ 34). vm_compute. reflexivity.
  - vm_compute in Hq. discriminate.
Qed.

(** What [cm ""] does in a checkout without [legacy-modes]. *)
Example start_empty_command :
  start empty_command_node (a_ts false) demo_rollup demo_http demo_git
    (registry_of empty_command_node) start_world
  = (Exit 1, add start_world [Console Log (Text usage)]).
Proof. vm_compute. reflexivity. Qed.

(** What [cm build] does there. *)
Example start_build_missing_legacy :
  start missing_legacy_node (a_ts false) demo_rollup demo_http demo_git
    (registry_of missing_legacy_node) start_world
  = (Exit 1,
     add start_world
       [Console Err (Text "module legacy-modes is missing. Did you forget to run 'cm install'?")]).
Proof. vm_compute. reflexivity. Qed.

(** ** The bundle stage *)

Lemma add_add w evs evs' : add (add w evs) evs' = add w (evs ++ evs').
Proof. unfold add. simpl. by rewrite app_assoc. Qed.

Lemma add_nil w : add w [] = w.
Proof. unfold add. by rewrite app_nil_r, world_eta. Qed.

Lemma for_of_app {A} (f : A → Proc unit) l1 l2 w :
  for_of f (l1 ++ l2) w = (for_of f l1 ;; for_of f l2) w.
Proof.
  revert w; induction l1 as [|x l1 IH]; intros w; [done|].
  simpl. rewrite !run_bind. destruct (f x w) as [[[]|s|e] w']; [|done..].
  rewrite IH. by rewrite run_bind.
Qed.

Section BundleStage.
Context (node : Node) (rl : RollupLib).
Hypothesis writes_succeed : ∀ path, writeFile_error node path = None.
Hypothesis mkdir_succeeds : ∀ d, mkdir_error node d = None.

Lemma writeFile_run path content w :
  writeFile node path (Some content) w = (Ret (), add w [WriteFile path content]).
Proof. unfold writeFile. by rewrite writes_succeed. Qed.

Lemma write_output_chunk d nm code m w :
  code ≠ "" →
  write_output node d (chunk nm code m) w
  = (Ret (),
     add w (WriteFile (path_join node [d; nm]) code
            :: match m with
               | Some mp => [WriteFile (path_join node [d; nm +:+ ".map"]) mp]
               | None => []
               end)).
Proof.
  intros Hcode. unfold write_output, chunk, js_or, truthy.
  cbn [fileName out_code source map].
  destruct (String.eqb_spec code "") as [?|_]; [done|]. cbn [negb].
  erewrite bind_Ret by apply writeFile_run.
  destruct m as [mp|].
  - by rewrite writeFile_run, add_add.
  - reflexivity.
Qed.

Lemma run_config_chunk config nm code m w :
  bundles_to rl config [chunk nm code m] → code ≠ "" →
  run_config node rl config w
  = (Ret (), add w (chunk_events node config nm code m)).
Proof.
  intros (bundle & Hb & Hgen) Hcode. unfold run_config.
  erewrite bind_Ret by reflexivity.
  erewrite bind_Ret by (rewrite Hb; reflexivity).
  erewrite bind_Ret by (rewrite Hgen; reflexivity).
  erewrite bind_Ret
    by (unfold catch, mkdir; rewrite mkdir_succeeds; reflexivity).
  rewrite for_of_cons. erewrite bind_Ret by by apply write_output_chunk.
  rewrite for_of_nil. unfold chunk_events, add.
  destruct m; simpl; by rewrite <- !app_assoc.
Qed.

(** A loop of [runRollup] over the configurations of a list of
    packages, each of which runs to its own events. *)
Lemma runRollup_each (mk : Pkg → Res RollupConfig)
    (evs : Pkg → list Event) (l : list Pkg) :
  (∀ p, p ∈ l →
     ∃ c, mk p = Ok c
          ∧ ∀ w, run_config node rl c w = (Ret (), add w (evs p))) →
  ∃ configs, mapM mk l = Ok configs
    ∧ ∀ w, for_of (run_config node rl) configs w
           = (Ret (), add w (flat_map evs l)).
Proof.
  induction l as [|p l IH]; intros Hl.
  - exists []. split; [done|]. intros w. simpl. by rewrite add_nil.
  - destruct (Hl p) as (c & Hc & Hrun); [by left|].
    destruct IH as (configs & Hm & Hruns).
    { intros q Hq. apply Hl. by right. }
    exists (c :: configs). split.
    + by rewrite mapM_Res_cons, Hc, run_Res_bind, Hm.
    + intros w. rewrite for_of_cons. erewrite bind_Ret by apply Hrun.
      rewrite Hruns, add_add. reflexivity.
Qed.
End BundleStage.

Lemma flat_map_elem {A B} (f : A → list B) (l : list A) (x : A) :
  x ∈ l → ∃ before after, flat_map f l = before ++ f x ++ after.
Proof.
  intros (l1 & l2 & ->)%list_elem_of_split.
  exists (flat_map f l1), (flat_map f l2).
  by rewrite flat_map_app.
Qed.

(** C7.  When rollup bundles every configuration to its one chunk and
    the file system accepts the writes, the bundle stage returns and,
    for every buildable package, has created [dist] in the package
    directory and written there [index.js] with [index.js.map], and
    later [index.d.ts]. *)
Theorem bundle_stage_writes node rl reg (code_of map_of decl_of : Pkg → string)
    pkg w :
  load_registry node = Ok reg →
  (∀ path, writeFile_error node path = None) →
  (∀ d, mkdir_error node d = None) →
  (∀ p config, p ∈ buildPackages reg → rollupConfig node p = Ok config →
     bundles_to rl config [chunk "index.js" (code_of p) (Some (map_of p))]
     ∧ code_of p ≠ "") →
  (∀ p config, p ∈ buildPackages reg → rollupDeclConfig node p = Ok config →
     bundles_to rl config [chunk "index.d.ts" (decl_of p) None]
     ∧ decl_of p ≠ "") →
  pkg ∈ buildPackages reg →
  let dist := path_join node [dir pkg; "dist"] in
  path_dirname node (path_join node [dir pkg; "dist"; "index.js"]) = dist →
  path_dirname node (path_join node [dir pkg; "dist"; "index.d.ts"]) = dist →
  (∀ f, path_join node [dist; f] = path_join node [dir pkg; "dist"; f]) →
  ∃ m before between after,
    main pkg = Some m
    ∧ bundle_stage node rl reg w
      = (Ret (),
         add w (before
                ++ [ Rollup (replace_ts ".js" m)
                       (path_join node [dir pkg; "dist"; "index.js"]);
                     Mkdir dist;
                     WriteFile (path_join node [dir pkg; "dist"; "index.js"])
                       (code_of pkg);
                     WriteFile (path_join node [dir pkg; "dist"; "index.js.map"])
                       (map_of pkg) ]
                ++ between
                ++ [ Rollup (replace_ts ".d.ts" m)
                       (path_join node [dir pkg; "dist"; "index.d.ts"]);
                     Mkdir dist;
                     WriteFile (path_join node [dir pkg; "dist"; "index.d.ts"])
                       (decl_of pkg) ]
                ++ after)).
Proof.
  intros Hreg Hwf Hmk Hcode Hdecl Hpkg dist Hdjs Hddts Hjoin.
  assert (∀ p, p ∈ buildPackages reg → ∃ m, main p = Some m) as Hmain.
  { intros p Hp. by destruct (buildPackages_buildable node reg p Hreg Hp). }
  set (code_events := λ p : Pkg,
         match rollupConfig node p with
         | Ok c => chunk_events node c "index.js" (code_of p) (Some (map_of p))
         | Raise _ => []
         end).
  set (decl_events := λ p : Pkg,
         match rollupDeclConfig node p with
         | Ok c => chunk_events node c "index.d.ts" (decl_of p) None
         | Raise _ => []
         end).
  destruct (runRollup_each node rl (rollupConfig node) code_events
              (buildPackages reg)) as (codes & Hcodes & Hrun_codes).
  { intros p Hp. destruct (Hmain p Hp) as [m Hm].
    assert (∃ c, rollupConfig node p = Ok c) as [c Hc]
      by (unfold rollupConfig, main_as; rewrite Hm; eauto).
    exists c. split; [done|]. intros w'. subst code_events. cbv beta.
    rewrite Hc. destruct (Hcode p c Hp Hc) as [Hb Hne].
    by apply run_config_chunk. }
  destruct (runRollup_each node rl (rollupDeclConfig node) decl_events
              (buildPackages reg)) as (decls & Hdecls & Hrun_decls).
  { intros p Hp. destruct (Hmain p Hp) as [m Hm].
    assert (∃ c, rollupDeclConfig node p = Ok c) as [c Hc]
      by (unfold rollupDeclConfig, main_as; rewrite Hm; eauto).
    exists c. split; [done|]. intros w'. subst decl_events. cbv beta.
    rewrite Hc. destruct (Hdecl p c Hp Hc) as [Hb Hne].
    by apply run_config_chunk. }
  destruct (Hmain pkg Hpkg) as [m Hm]. exists m.
  destruct (flat_map_elem code_events _ _ Hpkg) as (b1 & a1 & H1).
  destruct (flat_map_elem decl_events _ _ Hpkg) as (b2 & a2 & H2).
  exists b1, (a1 ++ b2), a2. split; [done|].
  unfold bundle_stage, runRollup.
  erewrite bind_Ret by (rewrite Hcodes; reflexivity).
  erewrite bind_Ret by (rewrite Hdecls; reflexivity).
  rewrite for_of_app. erewrite bind_Ret by apply Hrun_codes.
  rewrite Hrun_decls, add_add, H1, H2. f_equal. f_equal.
  subst code_events decl_events. cbv beta.
  unfold rollupConfig, rollupDeclConfig, main_as. rewrite Hm.
  rewrite !run_Res_bind. unfold chunk_events.
  cbn [output file input]. rewrite Hdjs, Hddts, !Hjoin.
  rewrite <- !app_assoc. reflexivity.
Qed.

Lemma bundle_stage_writes_witness :
  ∃ m before between after,
    main demo_state = Some m
    ∧ bundle_stage demo_node demo_rollup (registry_of demo_node) start_world
      = (Ret (),
         add start_world
           (before
            ++ [ Rollup (replace_ts ".js" m) "/cm/bin/../state/dist/index.js";
                 Mkdir "/cm/bin/../state/dist";
                 WriteFile "/cm/bin/../state/dist/index.js"
                   (demo_code_of demo_state);
                 WriteFile "/cm/bin/../state/dist/index.js.map"
                   (demo_map_of demo_state) ]
            ++ between
            ++ [ Rollup (replace_ts ".d.ts" m) "/cm/bin/../state/dist/index.d.ts";
                 Mkdir "/cm/bin/../state/dist";
                 WriteFile "/cm/bin/../state/dist/index.d.ts"
                   (demo_decl_of demo_state) ]
            ++ after)).
Proof.
  apply (bundle_stage_writes demo_node demo_rollup (registry_of demo_node)
           demo_code_of demo_map_of demo_decl_of demo_state start_world).
  - vm_compute. reflexivity.
  - intros path. reflexivity.
  - intros d. reflexivity.
  - intros p config _. unfold rollupConfig, main_as, demo_code_of.
    destruct (main p) as [m|]; [|discriminate]. intros [= <-].
    split; [eexists; split; reflexivity|]. discriminate.
  - intros p config _. unfold rollupDeclConfig, main_as, demo_decl_of.
    destruct (main p) as [m|]; [|discriminate]. intros [= <-].
    split; [eexists; split; reflexivity|]. discriminate.
  - apply (list_elem_of_lookup_2 _ 0). vm_compute. reflexivity.
  - reflexivity.
  - reflexivity.
  - intros f. reflexivity.
Defined.

(** * Further properties of the script *)

(** ** The registry *)

(** X1.  The registry lists the declared packages in the order of the
    two lists of names, each under the directory of its name below the
    root. *)
Theorem registry_in_declared_order node reg :
  load_registry node = Ok reg →
  List.map name (packages reg) = core_names ++ nonCore_names
  ∧ Forall (λ p, dir p = path_join node [root node; name p]) (packages reg).
Proof.
  intros Hreg. destruct (load_registry_inv node reg Hreg) as (HF & _ & _).
  induction HF as [|nm p names pkgs Hp HF [IHn IHd]]; [by split|].
  destruct (new_Pkg_name node nm p Hp) as [Hn Hd]. split.
  - simpl. by rewrite Hn, IHn.
  - constructor; [by rewrite Hn|done].
Qed.

Lemma registry_in_declared_order_witness :
  List.map name (packages (registry_of demo_node)) = core_names ++ nonCore_names
  ∧ Forall (λ p, dir p = path_join demo_node [root demo_node; name p])
      (packages (registry_of demo_node)).
Proof.
  apply (registry_in_declared_order demo_node). vm_compute. reflexivity.
Defined.

(** X2.  The index of names finds every declared package under its
    name, and nothing under any other name. *)
Theorem packageNames_total_on_declared node reg id :
  load_registry node = Ok reg →
  (id ∈ core_names ++ nonCore_names →
   ∃ p, packageNames reg !! id = Some p ∧ name p = id ∧ p ∈ packages reg)
  ∧ (id ∉ core_names ++ nonCore_names → packageNames reg !! id = None).
Proof.
  intros Hreg. split.
  - intros Hin. destruct (names_registered node reg Hreg id Hin) as (p & Hp & Hpin).
    exists p. destruct (new_Pkg_name node id p Hp) as [Hn _].
    split; [|done]. by apply (packageNames_lookup node reg Hreg).
  - intros Hout. destruct (packageNames reg !! id) as [p|] eqn:Hl; [|done].
    apply (packageNames_lookup node reg Hreg) in Hl as [Hp Hn].
    destruct (packages_built node reg Hreg p Hp) as [Hin _].
    rewrite Hn in Hin. done.
Qed.

Lemma packageNames_total_on_declared_witness :
  (∃ p, packageNames (registry_of demo_node) !! "view" = Some p
        ∧ name p = "view" ∧ p ∈ packages (registry_of demo_node))
  ∧ packageNames (registry_of demo_node) !! "lezer" = None.
Proof.
  split.
  - apply (packageNames_total_on_declared demo_node (registry_of demo_node) "view").
    + vm_compute. reflexivity.
    + by apply includes_true.
  - apply (packageNames_total_on_declared demo_node (registry_of demo_node) "lezer").
    + vm_compute. reflexivity.
    + by apply includes_false.
Defined.

(** X3.  [legacy-modes] is registered without a main script and is not
    among the packages that are built; every package that is built is
    registered, is not [legacy-modes] and has a main script. *)
Theorem legacy_modes_is_not_built node reg :
  load_registry node = Ok reg →
  (∃ p, p ∈ packages reg ∧ name p = "legacy-modes" ∧ main p = None
        ∧ p ∉ buildPackages reg)
  ∧ ∀ p, p ∈ buildPackages reg →
         p ∈ packages reg ∧ name p ≠ "legacy-modes" ∧ is_Some (main p).
Proof.
  intros Hreg.
  assert (∀ p, p ∈ buildPackages reg →
               p ∈ packages reg ∧ name p ≠ "legacy-modes" ∧ is_Some (main p))
    as Hbuilt.
  { intros p Hp.
    destruct (buildPackages_buildable node reg p Hreg Hp) as [Hin Hm].
    split; [done|]. split; [|done]. intros Hn.
    destruct (packages_built node reg Hreg p Hin) as [_ Hb].
    rewrite Hn, new_Pkg_legacy in Hb. injection Hb as <-.
    by destruct Hm. }
  split; [|done].
  destruct (names_registered node reg Hreg "legacy-modes") as (p & Hp & Hin).
  { by apply includes_true. }
  rewrite new_Pkg_legacy in Hp. injection Hp as <-.
  eexists. split; [done|]. split; [done|]. split; [done|].
  intros Hb. destruct (Hbuilt _ Hb) as (_ & Hn & _). done.
Qed.

Lemma legacy_modes_is_not_built_witness :
  (∃ p, p ∈ packages (registry_of demo_node) ∧ name p = "legacy-modes"
        ∧ main p = None ∧ p ∉ buildPackages (registry_of demo_node))
  ∧ ∀ p, p ∈ buildPackages (registry_of demo_node) →
         p ∈ packages (registry_of demo_node) ∧ name p ≠ "legacy-modes"
         ∧ is_Some (main p).
Proof.
  apply (legacy_modes_is_not_built demo_node). vm_compute. reflexivity.
Defined.

(** X4.  A package other than [legacy-modes] whose source directory
    holds no recognised source file makes the constructor throw, and
    the script end before [start]. *)
Theorem no_source_file_fails node nm entries :
  nm ≠ "legacy-modes" →
  readdirSync node (src_of node nm) = Ok entries →
  List.filter is_source_file entries = [] →
  fails_on node nm.
Proof.
  intros Hne Hdir Hnone. apply fails_on_intro.
  by rewrite (new_Pkg_reads node nm entries Hne Hdir), Hnone.
Qed.

(** X5.  When the source directory of a declared package other than
    [legacy-modes] cannot be read, the script ends with an uncaught
    exception whatever the command is, [install] and [--help] included,
    and has performed no effect. *)
Theorem unreadable_package_ends_script node nm e :
  nm ∈ core_names ++ nonCore_names →
  nm ≠ "legacy-modes" →
  readdirSync node (src_of node nm) = Raise e →
  new_Pkg node nm = Raise e
  ∧ ∀ ts rl http git w, ∃ e', cm node ts rl http git w = (Throw e', w).
Proof.
  intros Hin Hne Hdir.
  assert (new_Pkg node nm = Raise e) as Hnew.
  { unfold new_Pkg. destruct (String.eqb_spec nm "legacy-modes"); [done|].
    simpl. fold (src_of node nm). by rewrite Hdir. }
  split; [done|]. intros ts rl http git w.
  destruct (load_registry_Raise node nm e Hin Hnew) as [e' He'].
  exists e'. by apply cm_uncaught.
Qed.

(** ** Patterns *)

(** X6.  The recognised source files are the names made of a non-empty
    stem without any dot and of [.ts]: hidden files and declaration
    files are not among them. *)
Theorem source_file_pattern f :
  (is_source_file f = true
   ↔ ∃ stem, f = stem +:+ ".ts" ∧ stem ≠ "" ∧ no_dot stem = true)
  ∧ (starts_with "." f → is_source_file f = false)
  ∧ (ends_with ".d.ts" f → is_source_file f = false).
Proof.
  split; [apply is_source_file_spec|]. split.
  - by intros [r ->].
  - intros [stem ->]. destruct (is_source_file _) eqn:E; [|done].
    apply is_source_file_spec in E as (stem' & Heq & _ & Hdot).
    exfalso. revert stem' Heq Hdot.
    induction stem as [|c stem IH]; intros [|c' stem'] Heq Hdot;
      string_simpl; try discriminate.
    + injection Heq as <- Heq. discriminate.
    + injection Heq as <- Heq. destruct stem as [|? [|? [|? ?]]]; discriminate.
    + injection Heq as <- Heq. apply andb_true_iff in Hdot as [_ Hdot]. eauto.
Qed.

Lemma no_source_file_fails_witness : fails_on empty_src_node "text".
Proof.
  apply (no_source_file_fails empty_src_node "text"
           ["README.md"; ".eslintrc.ts"; "text.d.ts"]).
  - discriminate.
  - reflexivity.
  - reflexivity.
Defined.

Lemma unreadable_package_ends_script_witness :
  new_Pkg fresh_node "state"
  = Raise (SystemError "ENOENT" "/cm/bin/../state/src")
  ∧ ∀ ts rl http git w, ∃ e', cm fresh_node ts rl http git w = (Throw e', w).
Proof.
  apply (unreadable_package_ends_script fresh_node "state").
  - by apply includes_true.
  - discriminate.
  - reflexivity.
Defined.

Lemma source_file_pattern_witness :
  is_source_file ".hidden.ts" = false ∧ is_source_file "index.d.ts" = false.
Proof.
  split.
  - apply (proj1 (proj2 (source_file_pattern ".hidden.ts"))). by exists "hidden.ts".
  - apply (proj2 (proj2 (source_file_pattern "index.d.ts"))). by exists "index".
Defined.

Lemma strip_prefix_append p r : strip_prefix p (p +:+ r) = Some r.
Proof. by apply strip_prefix_spec. Qed.

(** X7.  A sibling import whose identifier has a character that is not a
    word character, a hyphen for instance, is never resolved to the
    source of a sibling package: it goes to the default resolution,
    whatever the registry holds. *)
Theorem hyphenated_sibling_is_delegated ts reg host parent opts id :
  all_word id = false →
  resolve_name ts reg host parent opts ("@codemirror/" +:+ id)
  = resolveModuleName ts ("@codemirror/" +:+ id) parent opts (sys host).
Proof.
  intros Hid. unfold resolve_name, sibling_import.
  rewrite strip_prefix_append, Hid. by rewrite andb_false_r.
Qed.

Lemma hyphenated_sibling_is_delegated_witness :
  resolve_name (a_ts false) (registry_of demo_node)
    (createCompilerHost (a_ts false) []) "/cm/view/src/index.ts" []
    ("@codemirror/" +:+ "rectangular-selection")
  = resolveModuleName (a_ts false) ("@codemirror/" +:+ "rectangular-selection")
      "/cm/view/src/index.ts" [] ().
Proof.
  apply (hyphenated_sibling_is_delegated (a_ts false) (registry_of demo_node)).
  reflexivity.
Defined.

(** ** The bundle stage *)

Lemma length_append a b :
  String.length (a +:+ b) = String.length a + String.length b.
Proof.
  induction a as [|c a IH]; [done|].
  rewrite append_cons. cbn [String.length]. by rewrite IH.
Qed.

Lemma replace_ts_cons ext c r :
  replace_ts ext (String c r)
  = if String.eqb (String c r) ".ts" then ext
    else String c (replace_ts ext r).
Proof. reflexivity. Qed.

Lemma replace_ts_suffix ext stem :
  replace_ts ext (stem +:+ ".ts") = stem +:+ ext.
Proof.
  induction stem as [|c stem IH]; [done|].
  rewrite !append_cons, replace_ts_cons, IH.
  destruct (String.eqb_spec (String c (stem +:+ ".ts")) ".ts") as [E|_]; [|done].
  apply (f_equal String.length) in E. cbn [String.length] in E.
  rewrite length_append in E. cbn [String.length] in E. lia.
Qed.

Lemma replace_ts_other ext s :
  ¬ ends_with ".ts" s → replace_ts ext s = s.
Proof.
  induction s as [|c s IH]; intros Hno; [done|].
  rewrite replace_ts_cons.
  destruct (String.eqb_spec (String c s) ".ts") as [E|_].
  - exfalso. apply Hno. exists "". by rewrite E.
  - rewrite IH; [done|]. intros [stem ->]. apply Hno. by exists (String c stem).
Qed.

(** X8.  For a package whose main script is [stem.ts], the code bundle
    is made from [stem.js] and the declaration bundle from [stem.d.ts];
    a main script that does not end in [.ts] is the input of both as it
    is; and a package without main script makes both configurations
    throw. *)
Theorem bundle_inputs node p :
  (∀ stem, main p = Some (stem +:+ ".ts") →
     ∃ c d, rollupConfig node p = Ok c ∧ rollupDeclConfig node p = Ok d
            ∧ input c = stem +:+ ".js" ∧ input d = stem +:+ ".d.ts")
  ∧ (∀ m, main p = Some m → ¬ ends_with ".ts" m →
       ∃ c d, rollupConfig node p = Ok c ∧ rollupDeclConfig node p = Ok d
              ∧ input c = m ∧ input d = m)
  ∧ (main p = None →
     (∃ e, rollupConfig node p = Raise e)
     ∧ ∃ e, rollupDeclConfig node p = Raise e).
Proof.
  unfold rollupConfig, rollupDeclConfig, main_as. split; [|split].
  - intros stem ->. rewrite !run_Res_bind. do 2 eexists.
    split; [done|]. split; [done|]. cbn [input].
    by rewrite !replace_ts_suffix.
  - intros m -> Hno. rewrite !run_Res_bind. do 2 eexists.
    split; [done|]. split; [done|]. cbn [input].
    by rewrite !replace_ts_other.
  - intros ->. split; eauto.
Qed.

Lemma bundle_inputs_witness :
  ∃ c d, rollupConfig demo_node demo_state = Ok c
         ∧ rollupDeclConfig demo_node demo_state = Ok d
         ∧ input c = "/cm/bin/../state/src/state" +:+ ".js"
         ∧ input d = "/cm/bin/../state/src/state" +:+ ".d.ts".
Proof.
  apply (proj1 (bundle_inputs demo_node demo_state)). reflexivity.
Defined.

Lemma run_lift_Ok {A} (a : A) w : lift (Ok a) w = (Ret a, w).
Proof. reflexivity. Qed.

Lemma write_output_events node d f w :
  (∀ path, writeFile_error node path = None) →
  is_Some (content_of f) →
  write_output node d f w = (Ret (), add w (file_events node d f)).
Proof.
  intros Hwf [content Hc]. unfold write_output, file_events.
  unfold content_of in *. rewrite Hc.
  erewrite bind_Ret by by apply writeFile_run.
  destruct (map f) as [m|].
  - rewrite writeFile_run by done. by rewrite add_add.
  - reflexivity.
Qed.

Lemma for_of_events {A} (f : A → Proc unit) (evs : A → list Event) l w :
  (∀ x, x ∈ l → ∀ w, f x w = (Ret (), add w (evs x))) →
  for_of f l w = (Ret (), add w (flat_map evs l)).
Proof.
  revert w; induction l as [|x l IH]; intros w Hl.
  - by rewrite for_of_nil, add_nil.
  - rewrite for_of_cons. erewrite bind_Ret by (apply Hl; by left).
    rewrite IH by (intros y Hy; apply Hl; by right).
    by rewrite add_add.
Qed.

(** X9.  When rollup bundles a configuration and every output file has
    a content, [runRollup] writes every file, and the map of every file
    that has one, into the directory of the configured output file, in
    the order of the output; a failure to create that directory is
    ignored. *)
Theorem run_config_writes_outputs node rl config files w :
  bundles_to rl config files →
  (∀ path, writeFile_error node path = None) →
  Forall (λ f, is_Some (content_of f)) files →
  run_config node rl config w
  = (Ret (),
     add w (Rollup (input config) (file (output config))
            :: mkdir_events node (path_dirname node (file (output config)))
            ++ flat_map (file_events node
                           (path_dirname node (file (output config)))) files)).
Proof.
  intros (bundle & Hb & Hgen) Hwf Hfiles. unfold run_config.
  erewrite bind_Ret by reflexivity.
  erewrite bind_Ret by (rewrite Hb; reflexivity).
  erewrite bind_Ret by (rewrite Hgen; reflexivity).
  set (d := path_dirname node (file (output config))).
  assert (catch (mkdir node d) (λ _, mret ())
            (add w [Rollup (input config) (file (output config))])
          = (Ret (), add (add w [Rollup (input config) (file (output config))])
                       (mkdir_events node d))) as Hmk.
  { unfold catch, mkdir, mkdir_events.
    destruct (mkdir_error node d); [|done]. by rewrite add_nil. }
  erewrite bind_Ret by apply Hmk.
  rewrite (for_of_events _ (file_events node d)).
  - by rewrite !add_add.
  - intros f Hf w'. apply write_output_events; [done|].
    by apply (proj1 (Forall_forall _ _) Hfiles).
Qed.

(** X10.  [runRollup] stops at the first configuration that rollup
    fails to bundle or to generate: the exception is thrown, what the
    configurations before it wrote stays, and no later configuration is
    touched. *)
Theorem runRollup_stops_at_failure node rl before config after w w1 e :
  runRollup node rl before w = (Ret (), w1) →
  (rollup rl config = Raise e
   ∨ ∃ bundle, rollup rl config = Ok bundle
               ∧ bundle (output config) = Raise e) →
  runRollup node rl (before ++ config :: after) w
  = (Throw e, add w1 [Rollup (input config) (file (output config))]).
Proof.
  intros Hbefore Hfail. unfold runRollup in *.
  rewrite for_of_app. erewrite bind_Ret by apply Hbefore.
  rewrite for_of_cons. erewrite bind_Throw; [done|].
  unfold run_config. erewrite bind_Ret by reflexivity.
  destruct Hfail as [Hr|(bundle & Hr & Hg)].
  - erewrite bind_Throw; [done|]. by rewrite Hr.
  - erewrite bind_Ret by (rewrite Hr; reflexivity).
    erewrite bind_Throw; [done|]. by rewrite Hg.
Qed.

Lemma run_config_writes_outputs_witness :
  run_config demo_node demo_rollup (demo_config "view") start_world
  = (Ret (),
     add start_world
       (Rollup (input (demo_config "view")) (file (output (demo_config "view")))
        :: mkdir_events demo_node "/cm/bin/../view/dist"
        ++ flat_map (file_events demo_node "/cm/bin/../view/dist")
             [chunk "index.js" "// bundle of /cm/bin/../view/src/index.js"
                (Some "{}")])).
Proof.
  apply (run_config_writes_outputs demo_node demo_rollup (demo_config "view")).
  - eexists. split; reflexivity.
  - intros path. reflexivity.
  - constructor; [by eexists|constructor].
Defined.

Lemma runRollup_stops_at_failure_witness :
  runRollup demo_node failing_rollup
    ([demo_config "view"] ++ demo_config "text" :: [demo_config "commands"])
    start_world
  = (Throw (Error "Unexpected token"),
     add (add start_world
            [ Rollup "/cm/bin/../view/src/index.js" "/cm/bin/../view/dist/index.js";
              Mkdir "/cm/bin/../view/dist";
              WriteFile "/cm/bin/../view/dist/index.js"
                "// bundle of /cm/bin/../view/src/index.js";
              WriteFile "/cm/bin/../view/dist/index.js.map" "{}" ])
       [Rollup (input (demo_config "text")) (file (output (demo_config "text")))]).
Proof.
  apply (runRollup_stops_at_failure demo_node failing_rollup).
  - reflexivity.
  - left. reflexivity.
Defined.

(** ** The batch build *)

(** X11.  After a compilation that emitted, [build] ends as the bundle
    stage ends: when the bundle stage throws, so does [build], without
    a closing line; when it returns, [build] prints the time between the
    two readings of the clock around the bundle stage and returns. *)
Theorem build_ends_as_bundle_stage node ts rl reg w :
  emitSkipped (emit (batch_program node ts reg)) = false →
  let t := Date_now node in
  let w2 :=
    {| events :=
         events w
         ++ Console Info (Text "Running TypeScript compiler...")
            :: tsBuild_events ts (batch_program node ts reg)
            ++ [ Console Info (Text (done_in node (t (clock w)) (t (S (clock w)))));
                 Console Info (Text "Building bundles...") ];
       clock := S (S (S (clock w))) |} in
  (∀ e w3, bundle_stage node rl reg w2 = (Throw e, w3) →
           build node ts rl reg w = (Throw e, w3))
  ∧ (∀ w3, bundle_stage node rl reg w2 = (Ret (), w3) →
           build node ts rl reg w
           = (Ret (),
              {| events :=
                   events w3
                   ++ [Console Log (Text (done_in node (t (S (S (clock w))))
                                                   (t (clock w3))))];
                 clock := S (clock w3) |})).
Proof.
  intros Hs t w2.
  assert (build node ts rl reg w
          = (bundle_stage node rl reg ≫= λ _,
               t1 ← now node;
               console Log (Text (done_in node (t (S (S (clock w)))) t1))) w2)
    as Hbuild.
  { unfold build.
    erewrite bind_Ret by reflexivity.
    erewrite bind_Ret by reflexivity.
    erewrite bind_Ret by (rewrite tsBuild_run, Hs; reflexivity).
    erewrite bind_Ret by reflexivity.
    erewrite bind_Ret by reflexivity.
    erewrite bind_Ret by reflexivity.
    erewrite bind_Ret by reflexivity.
    subst w2 t. cbn [events clock].
    rewrite <- !app_assoc. reflexivity. }
  rewrite Hbuild. split.
  - intros e w3 Hb. by erewrite bind_Throw.
  - intros w3 Hb. erewrite bind_Ret by apply Hb.
    erewrite bind_Ret by reflexivity. reflexivity.
Qed.

Lemma build_ends_as_bundle_stage_witness :
  ∃ w3,
    build demo_node (a_ts false) failing_rollup (registry_of demo_node) start_world
    = (Throw (Error "Unexpected token"), w3).
Proof.
  eexists.
  apply (proj1 (build_ends_as_bundle_stage demo_node (a_ts false) failing_rollup
                  (registry_of demo_node) start_world eq_refl)).
  vm_compute. reflexivity.
Defined.

(** ** Command dispatch *)

Lemma help_run status w : help status w = (Exit status, add w [usage_printed]).
Proof. unfold help. by erewrite bind_Ret by reflexivity. Qed.

Lemma command_table_other node ts rl http git reg c :
  c ∉ commands →
  command_table node ts rl http git reg c = inherited git c.
Proof.
  intros Hc. unfold command_table.
  repeat match goal with
  | |- context [String.eqb c ?k] =>
      destruct (String.eqb_spec c k) as [->|_];
        [exfalso; apply Hc; by apply includes_true|]
  end.
  reflexivity.
Qed.

Lemma dispatch_without_function node ts rl http git reg command w :
  (command ≫= command_table node ts rl http git reg) = None →
  dispatch node ts rl http git reg command w = (Exit 1, add w [usage_printed]).
Proof.
  intros Hc. unfold dispatch. rewrite Hc.
  erewrite bind_Exit; [done|]. apply help_run.
Qed.

Lemma start_checked node ts rl http git reg c w :
  argv node !! 2%nat = Some c →
  c ≠ "" → c ≠ "install" → c ≠ "--help" →
  start node ts rl http git reg w
  = (assertInstalled node reg ;; dispatch node ts rl http git reg (Some c)) w.
Proof.
  intros Hc Hne Hi Hh. unfold start. rewrite Hc. cbn [truthy default id].
  assert (negb (String.eqb c "")
          && negb (includes c ["install"; "--help"]) = true) as ->; [|done].
  apply andb_true_iff. split.
  - by destruct (String.eqb_spec c "").
  - apply negb_true_iff, includes_false. intros Hin.
    apply elem_of_cons in Hin as [->|Hin]; [done|].
    apply elem_of_cons in Hin as [->|Hin]; [done|].
    by apply elem_of_nil in Hin.
Qed.

Lemma start_installed node ts rl http git reg c w :
  argv node !! 2%nat = Some c →
  (∀ p, p ∈ packages reg → existsSync node (dir p) = true) →
  start node ts rl http git reg w
  = dispatch node ts rl http git reg (Some c) w.
Proof.
  intros Hc Hall. unfold start. rewrite Hc.
  destruct (truthy (Some c)
            && negb (includes (default "" (Some c)) ["install"; "--help"])).
  - erewrite bind_Ret; [done|]. by apply assertInstalled_passes.
  - by erewrite bind_Ret by reflexivity.
Qed.

(** X12.  With a command that is neither a name of the table nor an
    inherited property of it, [start] exits with status 1 and calls no
    function: after the usage when the command is the empty string or
    the directory of every package exists, and after the line about a
    missing package otherwise. *)
Theorem unknown_command_fails node ts rl http git reg c w :
  argv node !! 2%nat = Some c →
  (c ∉ commands) → inherited git c = None →
  (c = "" ∨ (∀ p, p ∈ packages reg → existsSync node (dir p) = true) →
   start node ts rl http git reg w = (Exit 1, add w [usage_printed]))
  ∧ (c ≠ "" →
     (∃ p, p ∈ packages reg ∧ existsSync node (dir p) = false) →
     ∃ q, q ∈ packages reg ∧ existsSync node (dir q) = false
          ∧ start node ts rl http git reg w
            = (Exit 1, add w [missing_message q])).
Proof.
  intros Hc Hno Hi.
  assert (dispatch node ts rl http git reg (Some c) w
          = (Exit 1, add w [usage_printed])) as Hd.
  { apply dispatch_without_function. simpl. by rewrite command_table_other. }
  split.
  - intros [-> | Hall].
    + unfold start. rewrite Hc. cbn [truthy String.eqb negb andb].
      by erewrite bind_Ret by reflexivity.
    + by rewrite (start_installed _ _ _ _ _ _ c).
  - intros Hne Hmiss.
    destruct (assertInstalled_exits node reg w Hmiss) as (q & Hq & Hqm & Hrun).
    exists q. split; [done|]. split; [done|].
    rewrite (start_checked _ _ _ _ _ _ c); [by erewrite bind_Exit|done..| |].
    + intros ->. apply Hno. by apply includes_true.
    + intros ->. apply Hno. by apply includes_true.
Qed.

Lemma unknown_command_fails_witness :
  start deploy_node (a_ts false) demo_rollup demo_http demo_git
    (registry_of deploy_node) start_world
  = (Exit 1, add start_world [usage_printed])
  ∧ ∃ q, q ∈ packages (registry_of deploy_missing_node)
         ∧ existsSync deploy_missing_node (dir q) = false
         ∧ start deploy_missing_node (a_ts false) demo_rollup demo_http demo_git
             (registry_of deploy_missing_node) start_world
           = (Exit 1, add start_world [missing_message q]).
Proof.
  split.
  - apply (proj1 (unknown_command_fails deploy_node (a_ts false) demo_rollup
                    demo_http demo_git (registry_of deploy_node) "deploy"
                    start_world eq_refl
                    (proj1 (includes_false "deploy" commands) eq_refl) eq_refl)).
    by right.
  - apply (proj2 (unknown_command_fails deploy_missing_node (a_ts false)
                    demo_rollup demo_http demo_git
                    (registry_of deploy_missing_node) "deploy"
                    start_world eq_refl
                    (proj1 (includes_false "deploy" commands) eq_refl) eq_refl)).
    + discriminate.
    + exists {| name := "legacy-modes"; dir := "/cm/bin/../legacy-modes";
                main := None |}.
      split; [|reflexivity].
      apply (list_elem_of_lookup_2 _ 34). vm_compute. reflexivity.
Defined.

(** X13.  When the function of the command gets enough arguments, the
    dispatch ends as the function does, except that an exception of the
    function is printed and turned into exit status 1. *)
Theorem dispatch_ends_as_command node ts rl http git reg c fn w :
  command_table node ts rl http git reg c = Some fn →
  (fn_length fn <= length (drop 3 (argv node)))%nat →
  let run := fn_apply fn (drop 3 (argv node)) w in
  (run.1 = Ret () →
   dispatch node ts rl http git reg (Some c) w = (Ret (), run.2))
  ∧ (∀ s, run.1 = Exit s →
          dispatch node ts rl http git reg (Some c) w = (Exit s, run.2))
  ∧ (∀ e, run.1 = Throw e →
          dispatch node ts rl http git reg (Some c) w
          = (Exit 1, add run.2 [Console Err (Thrown e)])).
Proof.
  intros Hfn Hlen run. unfold dispatch. cbn [mbind option_bind].
  rewrite Hfn.
  destruct (Nat.ltb_spec (length (drop 3 (argv node))) (fn_length fn)); [lia|].
  erewrite bind_Ret by reflexivity. unfold catch. fold run.
  destruct run as [[[]|s|e] w']; cbn [fst snd].
  - split; [done|]. split; discriminate.
  - split; [discriminate|]. split; [by intros ? [= <-]|discriminate].
  - split; [discriminate|]. split; [discriminate|]. intros ? [= <-].
    unfold error. by erewrite bind_Ret by reflexivity.
Qed.

(** X14.  [run] is the only command of the table that needs an
    argument: in a checkout with the directory of every package,
    [cm run] without an argument prints the usage and exits with status
    1; every other command of the table takes any number of
    arguments. *)
Theorem run_needs_an_argument node ts rl http git reg w :
  (argv node !! 2%nat = Some "run" →
   drop 3 (argv node) = [] →
   (∀ p, p ∈ packages reg → existsSync node (dir p) = true) →
   start node ts rl http git reg w = (Exit 1, add w [usage_printed]))
  ∧ ∀ c, c ∈ commands → c ≠ "run" →
         ∃ fn, command_table node ts rl http git reg c = Some fn
               ∧ fn_length fn = 0.
Proof.
  split.
  - intros Hc Hargs Hall. rewrite (start_installed _ _ _ _ _ _ "run") by done.
    unfold dispatch. cbn [mbind option_bind].
    rewrite Hargs. cbn [command_table String.eqb length Nat.ltb Nat.leb fn_length].
    erewrite bind_Exit; [done|]. apply help_run.
  - intros c Hc Hrun. unfold commands in Hc.
    repeat (apply elem_of_cons in Hc as [->|Hc];
            [first [done | eexists; split; reflexivity]|]).
    by apply elem_of_nil in Hc.
Qed.

Lemma dispatch_ends_as_command_witness :
  dispatch demo_node (a_ts false) demo_rollup demo_http demo_git
    (registry_of demo_node) (Some "release") start_world
  = (Exit 1,
     add start_world
       [Console Err (Thrown (ReferenceError "packageJSON is not defined"))]).
Proof.
  eapply (proj2 (proj2 (dispatch_ends_as_command demo_node (a_ts false)
                          demo_rollup demo_http demo_git (registry_of demo_node)
                          "release" _ start_world eq_refl _))).
  reflexivity.
  Unshelve. simpl. lia.
Defined.

Lemma run_needs_an_argument_witness :
  start run_node (a_ts false) demo_rollup demo_http demo_git
    (registry_of run_node) start_world
  = (Exit 1, add start_world [usage_printed]).
Proof.
  apply (proj1 (run_needs_an_argument run_node (a_ts false) demo_rollup
                  demo_http demo_git (registry_of run_node) start_world));
    [reflexivity..|done].
Defined.

(** X15.  [cm --help] prints the usage and exits with status 0, and [cm]
    alone prints it and exits with status 1; neither looks at the
    package directories. *)
Theorem help_flag_and_no_command node ts rl http git reg w :
  (argv node !! 2%nat = Some "--help" →
   start node ts rl http git reg w = (Exit 0, add w [usage_printed]))
  ∧ (argv node !! 2%nat = None →
     start node ts rl http git reg w = (Exit 1, add w [usage_printed])).
Proof.
  split; intros Hc; unfold start; rewrite Hc; cbn [truthy default id].
  - erewrite bind_Ret by reflexivity. unfold dispatch.
    cbn [mbind option_bind command_table String.eqb]. simpl.
    erewrite bind_Ret by reflexivity. unfold catch. by rewrite help_run.
  - erewrite bind_Ret by reflexivity.
    by apply dispatch_without_function.
Qed.

Lemma help_flag_and_no_command_witness :
  start help_node (a_ts false) demo_rollup demo_http demo_git
    (registry_of help_node) start_world
  = (Exit 0, add start_world [usage_printed]).
Proof.
  apply (proj1 (help_flag_and_no_command help_node (a_ts false) demo_rollup
                  demo_http demo_git (registry_of help_node) start_world)).
  reflexivity.
Defined.

(** X16.  [cm packages] prints the declared names, one on a line, in the
    order of the two lists. *)
Theorem listPackages_prints_declared_names node reg w :
  load_registry node = Ok reg →
  listPackages reg w
  = (Ret (),
     add w [Console Log (Text (String.concat nl (core_names ++ nonCore_names)))]).
Proof.
  intros Hreg. unfold listPackages.
  destruct (load_registry_inv node reg Hreg) as (HF & _ & _).
  assert (List.map name (packages reg) = core_names ++ nonCore_names) as ->;
    [|done].
  induction HF as [|nm p names pkgs Hp HF IH]; [done|].
  destruct (new_Pkg_name node nm p Hp) as [Hn _]. simpl. by rewrite Hn, IH.
Qed.

Lemma listPackages_prints_declared_names_witness :
  listPackages (registry_of demo_node) start_world
  = (Ret (),
     add start_world
       [Console Log (Text (String.concat nl (core_names ++ nonCore_names)))]).
Proof.
  apply (listPackages_prints_declared_names demo_node). vm_compute. reflexivity.
Defined.

(** ** The dev server *)

Lemma startServer_run node http w :
  startServer node http w
  = (Ret (),
     add w [ Listen 8090 (if truthy (env node "OPEN") then None
                          else Some "127.0.0.1")
               (listener http (path_join node [root node; "demo"]));
             Console Log (Text "Dev server listening on 8090") ]).
Proof.
  unfold startServer. erewrite bind_Ret by reflexivity.
  unfold console, add. rewrite run_perform. simpl. by rewrite <- app_assoc.
Qed.

(** X17.  On a registry that the script has built, [devserver] starts
    the compiler's watcher, then for every package that is built, in the
    order of the registry, a watcher of the code bundle and a watcher of
    the declaration bundle, then the server; it returns. *)
Theorem devserver_installs_watchers node http reg w :
  load_registry node = Ok reg →
  devserver node http reg w
  = (Ret (),
     add w ([ TsWatch (path_join node [root node; "tsconfig.json"]);
              Console Log (Text "Watching...") ]
            ++ flat_map (watchers node) (buildPackages reg)
            ++ [ Listen 8090 (if truthy (env node "OPEN") then None
                              else Some "127.0.0.1")
                   (listener http (path_join node [root node; "demo"]));
                 Console Log (Text "Dev server listening on 8090") ])).
Proof.
  intros Hreg. unfold devserver.
  erewrite bind_Ret by reflexivity.
  erewrite bind_Ret by reflexivity.
  erewrite bind_Ret.
  2:{ apply (for_of_events _ (watchers node)). intros p Hp w'.
      destruct (buildPackages_buildable node reg p Hreg Hp) as [_ [m Hm]].
      unfold watchers, rollupConfig, rollupDeclConfig, main_as. rewrite Hm.
      rewrite !run_Res_bind.
      erewrite bind_Ret by reflexivity.
      erewrite bind_Ret by reflexivity.
      erewrite bind_Ret by reflexivity.
      rewrite run_perform. unfold add. cbn [events clock input output file].
      by rewrite <- app_assoc. }
  rewrite startServer_run. unfold add. cbn [events clock].
  by rewrite <- !app_assoc.
Qed.

Lemma devserver_installs_watchers_witness :
  devserver demo_node demo_http (registry_of demo_node) start_world
  = (Ret (),
     add start_world
       ([ TsWatch (path_join demo_node [root demo_node; "tsconfig.json"]);
          Console Log (Text "Watching...") ]
        ++ flat_map (watchers demo_node) (buildPackages (registry_of demo_node))
        ++ [ Listen 8090 (Some "127.0.0.1")
               (listener demo_http (path_join demo_node [root demo_node; "demo"]));
             Console Log (Text "Dev server listening on 8090") ])).
Proof.
  apply (devserver_installs_watchers demo_node demo_http). vm_compute. reflexivity.
Defined.

(** ** The commands that run programs *)

Lemma srun_bind {A B} (m : Cmd.Script A) (f : A → Cmd.Script B) sh :
  (m ≫= f) sh =
  match m sh with
  | (Ret a, sh') => f a sh'
  | (Exit s, sh') => (Exit s, sh')
  | (Throw e, sh') => (Throw e, sh')
  end.
Proof. reflexivity. Qed.

Lemma sbind_Ret {A B} (m : Cmd.Script A) (f : A → Cmd.Script B) sh a sh' :
  m sh = (Ret a, sh') → (m ≫= f) sh = f a sh'.
Proof. intros H. by rewrite srun_bind, H. Qed.

Lemma sbind_Exit {A B} (m : Cmd.Script A) (f : A → Cmd.Script B) sh s sh' :
  m sh = (Exit s, sh') → (m ≫= f) sh = (Exit s, sh').
Proof. intros H. by rewrite srun_bind, H. Qed.

Lemma sbind_Throw {A B} (m : Cmd.Script A) (f : A → Cmd.Script B) sh e sh' :
  m sh = (Throw e, sh') → (m ≫= f) sh = (Throw e, sh').
Proof. intros H. by rewrite srun_bind, H. Qed.

Lemma extend_nil sh : extend sh [] = sh.
Proof. unfold extend. rewrite app_nil_r. by destruct sh. Qed.

Lemma extend_extend sh s1 s2 : extend (extend sh s1) s2 = extend sh (s1 ++ s2).
Proof. unfold extend. simpl. by rewrite app_assoc. Qed.

Lemma each_cons {A} (f : A → Cmd.Script unit) x l sh :
  Cmd.each f (x :: l) sh = (f x ;; Cmd.each f l) sh.
Proof. reflexivity. Qed.

Lemma each_app {A} (f : A → Cmd.Script unit) l1 l2 sh :
  Cmd.each f (l1 ++ l2) sh = (Cmd.each f l1 ;; Cmd.each f l2) sh.
Proof.
  revert sh; induction l1 as [|x l1 IH]; intros sh; [done|].
  simpl. rewrite !srun_bind. destruct (f x sh) as [[[]|s|e] sh']; [|done..].
  rewrite IH. by rewrite srun_bind.
Qed.

(** A loop whose body runs, in each element, to its own steps. *)
Lemma each_steps {A} (f : A → Cmd.Script unit) (steps : A → list Cmd.Step) l sh :
  (∀ x, x ∈ l → ∀ sh, f x sh = (Ret (), extend sh (steps x))) →
  Cmd.each f l sh = (Ret (), extend sh (flat_map steps l)).
Proof.
  revert sh; induction l as [|x l IH]; intros sh Hl.
  - simpl. by rewrite extend_nil.
  - rewrite each_cons. erewrite sbind_Ret by (apply Hl; by left).
    rewrite IH by (intros y Hy; apply Hl; by right).
    by rewrite extend_extend.
Qed.

Lemma in_world_console l v sh :
  Cmd.in_world (console l v) sh = (Ret (), extend sh [Cmd.Did (Console l v)]).
Proof. reflexivity. Qed.

Lemma run_Ok os c a wd out sh :
  Cmd.execFileSync os {| Cmd.cmd := c; Cmd.args := a; Cmd.cwd := wd |} = Ok out →
  Cmd.run os c a wd sh
  = (Ret out, extend sh [Cmd.Ran {| Cmd.cmd := c; Cmd.args := a; Cmd.cwd := wd |}]).
Proof. intros H. unfold Cmd.run. by rewrite H. Qed.

Lemma run_Raise os c a wd e sh :
  Cmd.execFileSync os {| Cmd.cmd := c; Cmd.args := a; Cmd.cwd := wd |} = Raise e →
  Cmd.run os c a wd sh
  = (Throw e, extend sh [Cmd.Ran {| Cmd.cmd := c; Cmd.args := a; Cmd.cwd := wd |}]).
Proof. intros H. unfold Cmd.run. by rewrite H. Qed.

Lemma output_of_Ok os c out :
  Cmd.execFileSync os c = Ok out → output_of os c = out.
Proof. intros H. unfold output_of. by rewrite H. Qed.

Lemma runCmd_step_ok os c a p out sh :
  Cmd.execFileSync os (in_dir c a p) = Ok out →
  (Cmd.in_world (console Log (Text (name p +:+ ":"))) ;;
   Cmd.attempt
     (out ← Cmd.run os c a (dir p); Cmd.in_world (console Log (Text out)))
     (λ e, Cmd.in_world (console Log (Text (Cmd.error_toString os e)) ;; exit 1)))
    sh
  = (Ret (), extend sh (ran_in os c a p)).
Proof.
  intros H. erewrite sbind_Ret by apply in_world_console.
  unfold Cmd.attempt. erewrite sbind_Ret by by apply run_Ok.
  rewrite in_world_console, !extend_extend. unfold ran_in.
  by rewrite (output_of_Ok os _ out H).
Qed.

Lemma runCmd_step_fails os c a p e sh :
  Cmd.execFileSync os (in_dir c a p) = Raise e →
  (Cmd.in_world (console Log (Text (name p +:+ ":"))) ;;
   Cmd.attempt
     (out ← Cmd.run os c a (dir p); Cmd.in_world (console Log (Text out)))
     (λ e, Cmd.in_world (console Log (Text (Cmd.error_toString os e)) ;; exit 1)))
    sh
  = (Exit 1, extend sh (failed_in os c a p e)).
Proof.
  intros H. erewrite sbind_Ret by apply in_world_console.
  unfold Cmd.attempt. erewrite sbind_Throw by by apply run_Raise.
  unfold Cmd.in_world. erewrite bind_Ret by reflexivity.
  unfold extend, failed_in, in_dir. simpl.
  by rewrite <- !app_assoc.
Qed.

(** X18.  [cm run] stops at the first package in which the command
    fails: it has printed the name and the output of every package
    before it, prints the name of that package and the error, and exits
    with status 1 without running the command in any later package. *)
Theorem runCmd_stops_at_first_failure os reg c a before pkg after e sh :
  packages reg = before ++ pkg :: after →
  (∀ p, p ∈ before → ∃ out, Cmd.execFileSync os (in_dir c a p) = Ok out) →
  Cmd.execFileSync os (in_dir c a pkg) = Raise e →
  Cmd.runCmd os reg (Some c) a sh
  = (Exit 1,
     extend sh (flat_map (ran_in os c a) before ++ failed_in os c a pkg e)).
Proof.
  intros Hpk Hbefore Hfail. unfold Cmd.runCmd. rewrite Hpk, each_app.
  erewrite sbind_Ret.
  2:{ apply (each_steps _ (ran_in os c a)). intros p Hp sh'.
      destruct (Hbefore p Hp) as [out Hout]. by apply (runCmd_step_ok os c a p out). }
  rewrite each_cons. erewrite sbind_Exit by by apply runCmd_step_fails.
  by rewrite extend_extend.
Qed.

(** X19.  When the command succeeds in every package, [cm run] has run
    it once in every package directory, in the order of the registry,
    printing the name of the package before and the output after, and
    returns. *)
Theorem runCmd_runs_in_every_package os reg c a sh :
  (∀ p, p ∈ packages reg → ∃ out, Cmd.execFileSync os (in_dir c a p) = Ok out) →
  Cmd.runCmd os reg (Some c) a sh
  = (Ret (), extend sh (flat_map (ran_in os c a) (packages reg))).
Proof.
  intros Hall. unfold Cmd.runCmd.
  apply (each_steps _ (ran_in os c a)). intros p Hp sh'.
  destruct (Hall p Hp) as [out Hout]. by apply (runCmd_step_ok os c a p out).
Qed.

Lemma runCmd_stops_at_first_failure_witness :
  Cmd.runCmd demo_os small_registry (Some "npm") ["test"] start_shell
  = (Exit 1,
     extend start_shell
       (flat_map (ran_in demo_os "npm" ["test"])
          [demo_state;
           {| name := "view"; dir := "/cm/bin/../view";
              main := Some "/cm/bin/../view/src/index.ts" |}]
        ++ failed_in demo_os "npm" ["test"]
             {| name := "commands"; dir := "/cm/bin/../commands";
                main := Some "/cm/bin/../commands/src/index.ts" |}
             (Error "Command failed"))).
Proof.
  apply (runCmd_stops_at_first_failure demo_os small_registry "npm" ["test"]
           _ _ [{| name := "legacy-modes"; dir := "/cm/bin/../legacy-modes";
                   main := None |}]).
  - reflexivity.
  - intros p Hp.
    apply elem_of_cons in Hp as [->|Hp]; [by eexists|].
    apply elem_of_cons in Hp as [->|Hp]; [by eexists|].
    by apply elem_of_nil in Hp.
  - reflexivity.
Defined.

Lemma calm_os_succeeds : always_succeeds calm_os.
Proof. intros c. simpl. destruct (demo_exec c); eauto. Qed.

Lemma runCmd_runs_in_every_package_witness :
  Cmd.runCmd calm_os small_registry (Some "npm") ["test"] start_shell
  = (Ret (),
     extend start_shell
       (flat_map (ran_in calm_os "npm" ["test"]) (packages small_registry))).
Proof.
  apply (runCmd_runs_in_every_package calm_os small_registry).
  intros p _. apply calm_os_succeeds.
Defined.

Lemma commit_step os a p sh :
  always_succeeds os →
  (unstaged ← Cmd.run os "git" ["diff"] (dir p);
   changed ← (if truthy (Some unstaged) then mret true
              else staged ← Cmd.run os "git" ["diff"; "--cached"] (dir p);
                   mret (truthy (Some staged)));
   if changed : bool
   then out ← Cmd.run os "git" ("commit" :: a) (dir p);
        Cmd.in_world (console Log (Text (name p +:+ ":" +:+ nl +:+ out)))
   else mret ()) sh
  = (Ret (), extend sh (commit_steps os a p)).
Proof.
  intros Hs.
  destruct (Hs (in_dir "git" ["diff"] p)) as [u Hu].
  destruct (Hs (in_dir "git" ["diff"; "--cached"] p)) as [s Hst].
  destruct (Hs (in_dir "git" ("commit" :: a) p)) as [o Ho].
  unfold commit_steps, committed.
  rewrite (output_of_Ok _ _ _ Hu), (output_of_Ok _ _ _ Hst),
    (output_of_Ok _ _ _ Ho).
  erewrite sbind_Ret by by apply run_Ok. cbn [truthy].
  destruct (String.eqb_spec u "") as [->|Hne]; cbn [negb andb].
  - erewrite sbind_Ret.
    2:{ erewrite sbind_Ret by by apply run_Ok. reflexivity. }
    cbn [truthy]. destruct (String.eqb_spec s "") as [->|Hne]; cbn [negb].
    + by rewrite extend_extend.
    + erewrite sbind_Ret by by apply run_Ok.
      rewrite in_world_console, !extend_extend. reflexivity.
  - rewrite srun_bind. cbn [mret Cmd.Script_ret].
    erewrite sbind_Ret by by apply run_Ok.
    rewrite in_world_console, !extend_extend. reflexivity.
Qed.

Lemma has_changes_dec os p :
  has_changes os p
  ↔ String.eqb (output_of os (in_dir "git" ["diff"] p)) ""
    && String.eqb (output_of os (in_dir "git" ["diff"; "--cached"] p)) "" = false.
Proof.
  unfold has_changes.
  destruct (String.eqb_spec (output_of os (in_dir "git" ["diff"] p)) "");
    destruct (String.eqb_spec (output_of os (in_dir "git" ["diff"; "--cached"] p)) "");
    simpl; split; try done; try tauto.
Qed.

(** X20.  When git succeeds, [cm commit] returns, and it has run
    [git commit] with the given arguments exactly in the directories of
    the packages that have changes, unstaged or staged; it asks for the
    staged changes of a package only when the package has no unstaged
    one. *)
Theorem commit_only_where_changed os reg a sh :
  always_succeeds os →
  ∃ steps,
    Cmd.commit os reg a sh = (Ret (), extend sh steps)
    ∧ (∀ p, p ∈ packages reg → has_changes os p →
            Cmd.Ran (in_dir "git" ("commit" :: a) p) ∈ steps
            ∧ committed os a p ∈ steps)
    ∧ (∀ d, Cmd.Ran {| Cmd.cmd := "git"; Cmd.args := "commit" :: a;
                       Cmd.cwd := d |} ∈ steps →
            ∃ p, p ∈ packages reg ∧ dir p = d ∧ has_changes os p)
    ∧ (∀ d, Cmd.Ran {| Cmd.cmd := "git"; Cmd.args := ["diff"; "--cached"];
                       Cmd.cwd := d |} ∈ steps →
            ∃ p, p ∈ packages reg ∧ dir p = d
                 ∧ output_of os (in_dir "git" ["diff"] p) = "").
Proof.
  intros Hs. exists (flat_map (commit_steps os a) (packages reg)).
  split; [|split; [|split]].
  - unfold Cmd.commit. apply (each_steps _ (commit_steps os a)).
    intros p _ sh'. by apply commit_step.
  - intros p Hp Hch. apply has_changes_dec in Hch.
    rewrite !list_elem_of_In, !in_flat_map.
    split; exists p; (split; [by apply list_elem_of_In|]);
      unfold commit_steps; rewrite Hch; right; apply in_or_app; right.
    + by left.
    + right. by left.
  - intros d Hd. apply list_elem_of_In, in_flat_map in Hd as (p & Hp & Hin).
    exists p. split; [by apply list_elem_of_In|].
    unfold commit_steps in Hin.
    destruct Hin as [Hin|Hin]; [discriminate|].
    apply in_app_or in Hin as [Hin|Hin].
    + destruct (String.eqb _ ""); [|done].
      destruct Hin as [Hin|[]]. discriminate.
    + destruct (_ && _) eqn:Hch; [done|].
      destruct Hin as [Hin|[Hin|[]]]; [|discriminate].
      injection Hin as <-. split; [done|]. by apply has_changes_dec.
  - intros d Hd. apply list_elem_of_In, in_flat_map in Hd as (p & Hp & Hin).
    exists p. split; [by apply list_elem_of_In|].
    unfold commit_steps in Hin.
    destruct Hin as [Hin|Hin]; [discriminate|].
    apply in_app_or in Hin as [Hin|Hin].
    + destruct (String.eqb_spec (output_of os (in_dir "git" ["diff"] p)) "");
        [|done].
      destruct Hin as [Hin|[]]. injection Hin as <-. done.
    + destruct (_ && _); [done|].
      destruct Hin as [Hin|[Hin|[]]]; discriminate.
Qed.

Lemma commit_only_where_changed_witness :
  ∃ steps,
    Cmd.commit calm_os small_registry ["-m"; "Bump"] start_shell
    = (Ret (), extend start_shell steps)
    ∧ (∀ p, p ∈ packages small_registry → has_changes calm_os p →
            Cmd.Ran (in_dir "git" ("commit" :: ["-m"; "Bump"]) p) ∈ steps
            ∧ committed calm_os ["-m"; "Bump"] p ∈ steps)
    ∧ (∀ d, Cmd.Ran {| Cmd.cmd := "git"; Cmd.args := "commit" :: ["-m"; "Bump"];
                       Cmd.cwd := d |} ∈ steps →
            ∃ p, p ∈ packages small_registry ∧ dir p = d ∧ has_changes calm_os p)
    ∧ (∀ d, Cmd.Ran {| Cmd.cmd := "git"; Cmd.args := ["diff"; "--cached"];
                       Cmd.cwd := d |} ∈ steps →
            ∃ p, p ∈ packages small_registry ∧ dir p = d
                 ∧ output_of calm_os (in_dir "git" ["diff"] p) = "").
Proof.
  apply (commit_only_where_changed calm_os small_registry ["-m"; "Bump"]).
  apply calm_os_succeeds.
Defined.

(** What [cm commit -m Bump] runs in the three packages. *)
Example commit_demo :
  Cmd.commit calm_os small_registry ["-m"; "Bump"] start_shell
  = (Ret (),
     extend start_shell
       [ Cmd.Ran {| Cmd.cmd := "git"; Cmd.args := ["diff"];
                    Cmd.cwd := "/cm/bin/../state" |};
         Cmd.Ran {| Cmd.cmd := "git"; Cmd.args := ["commit"; "-m"; "Bump"];
                    Cmd.cwd := "/cm/bin/../state" |};
         Cmd.Did (Console Log (Text ("state:" +:+ nl +:+ "done")));
         Cmd.Ran {| Cmd.cmd := "git"; Cmd.args := ["diff"];
                    Cmd.cwd := "/cm/bin/../view" |};
         Cmd.Ran {| Cmd.cmd := "git"; Cmd.args := ["diff"; "--cached"];
                    Cmd.cwd := "/cm/bin/../view" |};
         Cmd.Ran {| Cmd.cmd := "git"; Cmd.args := ["commit"; "-m"; "Bump"];
                    Cmd.cwd := "/cm/bin/../view" |};
         Cmd.Did (Console Log (Text ("view:" +:+ nl +:+ "done")));
         Cmd.Ran {| Cmd.cmd := "git"; Cmd.args := ["diff"];
                    Cmd.cwd := "/cm/bin/../commands" |};
         Cmd.Ran {| Cmd.cmd := "git"; Cmd.args := ["diff"; "--cached"];
                    Cmd.cwd := "/cm/bin/../commands" |};
         Cmd.Ran {| Cmd.cmd := "git"; Cmd.args := ["diff"];
                    Cmd.cwd := "/cm/bin/../legacy-modes" |};
         Cmd.Ran {| Cmd.cmd := "git"; Cmd.args := ["diff"; "--cached"];
                    Cmd.cwd := "/cm/bin/../legacy-modes" |} ]).
Proof. vm_compute. reflexivity. Qed.

Lemma ends_word_cons c s :
  ends_word (String c s) = match s with
                           | EmptyString => word_char c
                           | String _ _ => ends_word s
                           end.
Proof. by destruct s. Qed.

Lemma ahead_after_spec w s :
  Cmd.ahead_after w s = true
  ↔ ∃ pre post, s = pre +:+ "ahead" +:+ post
                ∧ (pre = "" → w = false)
                ∧ ends_word pre = false
                ∧ Cmd.starts_word post = false.
Proof.
  revert w; induction s as [|c r IH]; intros w.
  - split; [discriminate|]. intros ([|? ?] & post & H & _); discriminate.
  - cbn [Cmd.ahead_after]. rewrite orb_true_iff, andb_true_iff, IH. split.
    + intros [[Hw Hm]|(pre & post & -> & Hpre & Hend & Hpost)].
      * destruct (strip_prefix "ahead" (String c r)) as [rest|] eqn:E;
          [|discriminate].
        apply strip_prefix_spec in E. exists "", rest.
        split; [done|]. split; [by destruct w|]. split; [done|].
        by destruct (Cmd.starts_word rest).
      * exists (String c pre), post. split; [done|]. split; [done|].
        split; [|done]. rewrite ends_word_cons. destruct pre; auto.
    + intros ([|c' pre] & post & Heq & Hpre & Hend & Hpost).
      * left. rewrite append_nil_l in Heq. rewrite Heq, strip_prefix_append, Hpost.
        rewrite (Hpre eq_refl). done.
      * right. rewrite append_cons in Heq. injection Heq as <- ->.
        exists pre, post. split; [done|].
        rewrite ends_word_cons in Hend. destruct pre; [|done].
        split; [done|]. done.
Qed.

(** X21.  The test of [push] on the status of a package holds exactly
    when the status has the letters [ahead] with no word character just
    before and none just after. *)
Theorem has_ahead_is_the_word s :
  Cmd.has_ahead s = true
  ↔ ∃ pre post, s = pre +:+ "ahead" +:+ post
                ∧ ends_word pre = false ∧ Cmd.starts_word post = false.
Proof.
  unfold Cmd.has_ahead. rewrite ahead_after_spec. split.
  - intros (pre & post & ? & _ & ? & ?). eauto.
  - intros (pre & post & ? & ? & ?). exists pre, post. auto.
Qed.

Lemma has_ahead_is_the_word_witness :
  Cmd.has_ahead "## master...origin/master [ahead 1]" = true.
Proof.
  apply (proj2 (has_ahead_is_the_word "## master...origin/master [ahead 1]")).
  by exists "## master...origin/master [", " 1]".
Defined.

(** The status lines of a branch that is ahead, of one that is not, and
    of one whose name has the letters. *)
Example has_ahead_demo :
  List.map Cmd.has_ahead
    [ "## master...origin/master [ahead 1]";
      "## master...origin/master";
      "## go-ahead...origin/go-ahead";
      "## ahead2...origin/ahead2 [behind 3]";
      "ahead" ]
  = [true; false; true; false; true].
Proof. reflexivity. Qed.

Lemma push_step os p sh :
  always_succeeds os →
  (status ← Cmd.run os "git" ["status"; "-sb"] (dir p);
   if Cmd.has_ahead status
   then Cmd.run os "git" ["push"] (dir p) ;; mret ()
   else mret ()) sh
  = (Ret (), extend sh (push_steps os p)).
Proof.
  intros Hs.
  destruct (Hs (in_dir "git" ["status"; "-sb"] p)) as [st Hst].
  destruct (Hs (in_dir "git" ["push"] p)) as [o Ho].
  unfold push_steps, is_ahead. rewrite (output_of_Ok _ _ _ Hst).
  erewrite sbind_Ret by by apply run_Ok.
  destruct (Cmd.has_ahead st).
  - erewrite sbind_Ret by by apply run_Ok. by rewrite extend_extend.
  - reflexivity.
Qed.

(** X22.  When git succeeds, [cm push] returns without printing, and it
    has run [git push] exactly in the directories of the packages whose
    status has the word [ahead]. *)
Theorem push_only_where_ahead os reg sh :
  always_succeeds os →
  ∃ steps,
    Cmd.push os reg sh = (Ret (), extend sh steps)
    ∧ Cmd.did steps = []
    ∧ (∀ p, p ∈ packages reg → is_ahead os p = true →
            Cmd.Ran (in_dir "git" ["push"] p) ∈ steps)
    ∧ (∀ d, Cmd.Ran {| Cmd.cmd := "git"; Cmd.args := ["push"]; Cmd.cwd := d |}
              ∈ steps →
            ∃ p, p ∈ packages reg ∧ dir p = d ∧ is_ahead os p = true).
Proof.
  intros Hs. exists (flat_map (push_steps os) (packages reg)).
  split; [|split; [|split]].
  - unfold Cmd.push. apply (each_steps _ (push_steps os)).
    intros p _ sh'. by apply push_step.
  - induction (packages reg) as [|p l IH]; [done|].
    simpl. unfold Cmd.did in *. rewrite flat_map_app, IH.
    by destruct (is_ahead os p).
  - intros p Hp Ha. rewrite list_elem_of_In, in_flat_map.
    exists p. split; [by apply list_elem_of_In|].
    unfold push_steps. rewrite Ha. right. by left.
  - intros d Hd. apply list_elem_of_In, in_flat_map in Hd as (p & Hp & Hin).
    exists p. split; [by apply list_elem_of_In|].
    unfold push_steps in Hin. destruct Hin as [Hin|Hin]; [discriminate|].
    destruct (is_ahead os p); [|done].
    destruct Hin as [Hin|[]]. by injection Hin as <-.
Qed.

Lemma push_only_where_ahead_witness :
  ∃ steps,
    Cmd.push calm_os small_registry start_shell = (Ret (), extend start_shell steps)
    ∧ Cmd.did steps = []
    ∧ (∀ p, p ∈ packages small_registry → is_ahead calm_os p = true →
            Cmd.Ran (in_dir "git" ["push"] p) ∈ steps)
    ∧ (∀ d, Cmd.Ran {| Cmd.cmd := "git"; Cmd.args := ["push"]; Cmd.cwd := d |}
              ∈ steps →
            ∃ p, p ∈ packages small_registry ∧ dir p = d
                 ∧ is_ahead calm_os p = true).
Proof.
  apply (push_only_where_ahead calm_os small_registry).
  apply calm_os_succeeds.
Defined.

Lemma in_world_help status sh :
  Cmd.in_world (help status) sh = (Exit status, extend sh [Cmd.Did usage_printed]).
Proof. unfold Cmd.in_world. by rewrite help_run. Qed.

(** X23.  [cm install] with an argument other than [--ssh] prints the
    usage and exits with status 1 before it clones anything. *)
Theorem install_rejects_other_arguments node ts rl os reg arg sh :
  arg ≠ "" → arg ≠ "--ssh" →
  Cmd.install node ts rl os reg (Some arg) sh
  = (Exit 1, extend sh [Cmd.Did usage_printed]).
Proof.
  intros He Hs. unfold Cmd.install. cbn [truthy].
  destruct (String.eqb_spec arg "") as [?|_]; [done|].
  rewrite bool_decide_eq_false_2 by congruence. cbn [negb andb].
  by erewrite sbind_Exit by apply in_world_help.
Qed.

Lemma install_rejects_other_arguments_witness :
  Cmd.install demo_node (a_ts false) demo_rollup demo_os small_registry
    (Some "--https") start_shell
  = (Exit 1, extend start_shell [Cmd.Did usage_printed]).
Proof. by apply install_rejects_other_arguments. Defined.

(** X24.  When git and yarn succeed, [cm install] clones, from GitHub
    over https, or over ssh with [--ssh], exactly the packages whose
    directory is missing, warns about the others, then runs
    [yarn install] in the root, and only then builds. *)
Theorem install_clones_what_is_missing node ts rl os reg arg base sh :
  always_succeeds os →
  (arg = Some "--ssh" ∧ base = "git@github.com:codemirror/"
   ∨ truthy arg = false ∧ base = "https://github.com/codemirror/") →
  Cmd.install node ts rl os reg arg sh
  = Cmd.in_world (catch (build node ts rl reg) (Cmd.unhandledRejection os))
      (extend sh
         (flat_map (clone_or_skip node base) (packages reg)
          ++ [ Cmd.Did (Console Log (Text "Running yarn install"));
               Cmd.Ran {| Cmd.cmd := "yarn"; Cmd.args := ["install"];
                          Cmd.cwd := root node |};
               Cmd.Did (Console Log (Text "Building modules")) ])).
Proof.
  intros Hs Harg. unfold Cmd.install.
  assert (truthy arg && negb (bool_decide (arg = Some "--ssh")) = false
          ∧ (if bool_decide (arg = Some "--ssh")
             then "git@github.com:codemirror/"
             else "https://github.com/codemirror/") = base) as [-> ->].
  { destruct Harg as [[-> ->]|[Ht ->]]; [done|].
    rewrite Ht. split; [done|].
    rewrite bool_decide_eq_false_2; [done|]. by intros ->. }
  erewrite sbind_Ret by reflexivity.
  erewrite sbind_Ret.
  2:{ apply (each_steps _ (clone_or_skip node base)). intros p _ sh'.
      unfold clone_or_skip. destruct (existsSync node (dir p)).
      - apply in_world_console.
      - destruct (Hs {| Cmd.cmd := "git";
                        Cmd.args := ["clone"; base +:+ name p +:+ ".git"; dir p];
                        Cmd.cwd := root node |}) as [out Hout].
        by erewrite sbind_Ret by by apply run_Ok. }
  erewrite sbind_Ret by apply in_world_console.
  destruct (Hs {| Cmd.cmd := "yarn"; Cmd.args := ["install"];
                  Cmd.cwd := root node |}) as [out Hout].
  erewrite sbind_Ret by by apply run_Ok.
  erewrite sbind_Ret by apply in_world_console.
  by rewrite !extend_extend.
Qed.

Lemma install_clones_what_is_missing_witness :
  Cmd.install missing_legacy_node (a_ts false) demo_rollup calm_os small_registry
    (Some "--ssh") start_shell
  = Cmd.in_world (catch (build missing_legacy_node (a_ts false) demo_rollup
                           small_registry)
                    (Cmd.unhandledRejection calm_os))
      (extend start_shell
         (flat_map (clone_or_skip missing_legacy_node "git@github.com:codemirror/")
            (packages small_registry)
          ++ [ Cmd.Did (Console Log (Text "Running yarn install"));
               Cmd.Ran {| Cmd.cmd := "yarn"; Cmd.args := ["install"];
                          Cmd.cwd := root missing_legacy_node |};
               Cmd.Did (Console Log (Text "Building modules")) ])).
Proof.
  apply install_clones_what_is_missing; [apply calm_os_succeeds|by left].
Defined.

(** What [cm install --ssh] runs before the build when only the
    directory of [legacy-modes] is missing. *)
Example install_demo :
  flat_map (clone_or_skip missing_legacy_node "git@github.com:codemirror/")
    (packages small_registry)
  = [ Cmd.Did (Console Warn (Text "Skipping cloning of state (directory exists)"));
      Cmd.Did (Console Warn (Text "Skipping cloning of view (directory exists)"));
      Cmd.Did (Console Warn (Text "Skipping cloning of commands (directory exists)"));
      Cmd.Ran {| Cmd.cmd := "git";
                 Cmd.args := [ "clone"; "git@github.com:codemirror/legacy-modes.git";
                               "/cm/bin/../legacy-modes" ];
                 Cmd.cwd := "/cm/bin/.." |} ].
Proof. reflexivity. Qed.

(** X25.  [cm release] cannot work: with every package installed, and
    whatever its arguments, it ends with status 1 after printing the
    ReferenceError of its first statement, and no program has run. *)
Theorem release_always_fails node ts rl http os reg proto w :
  argv node !! 2%nat = Some "release" →
  (∀ p, p ∈ packages reg → existsSync node (dir p) = true) →
  start node ts rl http (Cmd.scripts node ts rl os reg proto) reg w
  = (Exit 1,
     add w [Console Err (Thrown (ReferenceError "packageJSON is not defined"))])
  ∧ ∀ a sh, ∃ e, Cmd.release a sh = (Throw e, sh).
Proof.
  intros Hc Hall. split; [|by eexists].
  unfold start. rewrite Hc. cbn [truthy default id].
  erewrite bind_Ret by (by apply assertInstalled_passes).
  unfold dispatch. cbn [mbind option_bind command_table String.eqb]. simpl.
  erewrite bind_Ret by reflexivity. unfold catch, Cmd.to_proc, Cmd.release.
  unfold error. erewrite bind_Ret by reflexivity.
  unfold exit, add. simpl. by rewrite app_nil_r.
Qed.

Lemma release_always_fails_witness :
  start release_node (a_ts false) demo_rollup demo_http
    (Cmd.scripts release_node (a_ts false) demo_rollup demo_os small_registry
       (λ _, None))
    small_registry start_world
  = (Exit 1,
     add start_world
       [Console Err (Thrown (ReferenceError "packageJSON is not defined"))])
  ∧ ∀ a sh, ∃ e, Cmd.release a sh = (Throw e, sh).
Proof.
  apply (release_always_fails release_node (a_ts false) demo_rollup demo_http
           demo_os small_registry (λ _, None) start_world).
  - reflexivity.
  - intros p _. reflexivity.
Defined.

(** ** The release helpers *)

Lemma length_zero_nil {A} (l : list A) : Nat.eqb (length l) 0 = true ↔ l = [].
Proof. destruct l; by split. Qed.

(** X26.  [bumpVersion] throws exactly when there is no release note at
    all; and on a version whose major number is 0 a breaking change
    gives the version that a new feature gives. *)
Theorem bumpVersion_needs_changes succ version changes :
  (no_changes changes →
   Cmd.bumpVersion succ version changes = Raise (Error "No new release notes!"))
  ∧ (¬ no_changes changes →
     ∃ v, Cmd.bumpVersion succ version changes = Ok v)
  ∧ (Cmd.split_dot version !! 0%nat = Some "0" →
     Cmd.breaking changes ≠ [] →
     ∀ note,
       Cmd.bumpVersion succ version changes
       = Cmd.bumpVersion succ version
           {| Cmd.fix_ := Cmd.fix_ changes;
              Cmd.feature := note :: Cmd.feature changes;
              Cmd.breaking := [] |}).
Proof.
  unfold Cmd.bumpVersion, no_changes. split; [|split].
  - intros (-> & -> & ->). reflexivity.
  - intros Hsome.
    destruct (Cmd.breaking changes) as [|b bs] eqn:Hb;
      destruct (Cmd.feature changes) as [|f fs] eqn:Hf;
      destruct (Cmd.fix_ changes) as [|x xs] eqn:Hx;
      cbn [length Nat.eqb negb andb orb];
      try (destruct (bool_decide _)); cbn [negb andb]; eauto.
    by exfalso; apply Hsome.
  - intros Hmajor Hb note. rewrite Hmajor.
    rewrite bool_decide_eq_true_2 by done. cbn [negb]. rewrite andb_false_r.
    destruct (Cmd.breaking changes) as [|b bs]; [done|].
    cbn [length Nat.eqb negb andb orb Cmd.breaking Cmd.feature].
    by rewrite orb_true_r.
Qed.

Lemma bumpVersion_needs_changes_witness :
  Cmd.bumpVersion demo_succ "0.3.1"
    {| Cmd.fix_ := []; Cmd.feature := []; Cmd.breaking := ["Drop the old API"] |}
  = Cmd.bumpVersion demo_succ "0.3.1"
      {| Cmd.fix_ := []; Cmd.feature := ["x"]; Cmd.breaking := [] |}.
Proof.
  apply (proj2 (proj2 (bumpVersion_needs_changes demo_succ "0.3.1"
                         {| Cmd.fix_ := []; Cmd.feature := [];
                            Cmd.breaking := ["Drop the old API"] |}))).
  - reflexivity.
  - discriminate.
Defined.

(** The versions after a breaking change, a feature and a fix. *)
Example bumpVersion_demo :
  ( Cmd.bumpVersion demo_succ "1.2.3"
      {| Cmd.fix_ := ["a"]; Cmd.feature := ["b"]; Cmd.breaking := ["c"] |},
    Cmd.bumpVersion demo_succ "0.2.3"
      {| Cmd.fix_ := ["a"]; Cmd.feature := []; Cmd.breaking := ["c"] |},
    Cmd.bumpVersion demo_succ "1.2.3"
      {| Cmd.fix_ := ["a"]; Cmd.feature := []; Cmd.breaking := [] |},
    Cmd.bumpVersion demo_succ "1.2"
      {| Cmd.fix_ := ["a"]; Cmd.feature := []; Cmd.breaking := [] |} )
  = (Ok "2.0.0", Ok "0.3.0", Ok "1.2.4", Ok "1.2.NaN").
Proof. reflexivity. Qed.

Lemma link_refs_match r :
  Cmd.link_refs ("](##" +:+ r)
  = "](" +:+ Cmd.refTarget +:+ "#" +:+ Cmd.link_refs r.
Proof. reflexivity. Qed.

Lemma link_refs_other c r :
  ¬ starts_with "](##" (String c r) →
  Cmd.link_refs (String c r) = String c (Cmd.link_refs r).
Proof.
  intros Hno. cbn [Cmd.link_refs].
  destruct r as [|c1 [|c2 [|c3 r']]]; try reflexivity.
  destruct (Ascii.eqb_spec c "]") as [->|?]; [|done].
  destruct (Ascii.eqb_spec c1 "(") as [->|?]; [|done].
  destruct (Ascii.eqb_spec c2 "#") as [->|?]; [|done].
  destruct (Ascii.eqb_spec c3 "#") as [->|?]; [|done].
  exfalso. apply Hno. by exists r'.
Qed.

Lemma starts_with_dec p s : starts_with p s ∨ ¬ starts_with p s.
Proof.
  destruct (strip_prefix p s) as [r|] eqn:E.
  - left. exists r. by apply strip_prefix_spec.
  - right. by apply strip_prefix_none.
Qed.

(** The first character of a message is kept. *)
Lemma link_refs_head c r : ∃ t, Cmd.link_refs (String c r) = String c t.
Proof.
  destruct (starts_with_dec "](##" (String c r)) as [[r' Hr]|Hno].
  - rewrite Hr, link_refs_match. injection Hr as -> _. by eexists.
  - rewrite link_refs_other by done. by eexists.
Qed.

Lemma has_ref_link_cons c s :
  has_ref_link (String c s) ↔ starts_with "](##" (String c s) ∨ has_ref_link s.
Proof.
  split.
  - intros ([|c' pre] & post & H).
    + left. by exists post.
    + right. rewrite append_cons in H. injection H as _ ->. by exists pre, post.
  - intros [[post H]|(pre & post & ->)].
    + by exists "", post.
    + by exists (String c pre), post.
Qed.

(** The rewriting of a message without link of this kind leaves what
    follows a character other than the closing bracket as it is. *)
Lemma link_refs_not_bracket c r :
  c ≠ "]"%char → Cmd.link_refs (String c r) = String c (Cmd.link_refs r).
Proof.
  intros Hc. apply link_refs_other. intros [post H]. by injection H.
Qed.

Lemma link_refs_no_new_head c r :
  ¬ starts_with "](##" (String c r) →
  ¬ starts_with "](##" (String c (Cmd.link_refs r)).
Proof.
  intros Hno [post H]. apply Hno.
  injection H as -> H.
  destruct r as [|c1 r1]; [discriminate|].
  destruct (link_refs_head c1 r1) as [t1 Ht1]. rewrite Ht1 in H.
  injection H as -> H.
  rewrite link_refs_not_bracket in Ht1 by done. injection Ht1 as <-.
  destruct r1 as [|c2 r2]; [discriminate|].
  destruct (link_refs_head c2 r2) as [t2 Ht2]. rewrite Ht2 in H.
  injection H as -> H.
  rewrite link_refs_not_bracket in Ht2 by done. injection Ht2 as <-.
  destruct r2 as [|c3 r3]; [discriminate|].
  destruct (link_refs_head c3 r3) as [t3 Ht3]. rewrite Ht3 in H.
  injection H as -> H.
  by exists r3.
Qed.

Lemma no_ref_link_after_target s :
  ¬ has_ref_link s →
  ¬ has_ref_link ("](" +:+ Cmd.refTarget +:+ "#" +:+ s).
Proof.
  intros Hs. unfold Cmd.refTarget.
  repeat (rewrite ?append_cons, ?append_nil_l;
          rewrite has_ref_link_cons;
          intros [[post H]|H]; [discriminate|revert H]).
  rewrite ?append_nil_l. done.
Qed.

Lemma link_refs_leaves_none_upto n s :
  String.length s < n → ¬ has_ref_link (Cmd.link_refs s).
Proof.
  revert s; induction n as [|n IH]; intros s Hlen; [lia|].
  destruct s as [|c r].
  - intros ([|? ?] & post & H); discriminate.
  - destruct (starts_with_dec "](##" (String c r)) as [[r' Hr]|Hno].
    + rewrite Hr, link_refs_match. apply no_ref_link_after_target, IH.
      rewrite Hr in Hlen. rewrite length_append in Hlen. simpl in Hlen. lia.
    + rewrite link_refs_other by done. rewrite has_ref_link_cons.
      intros [H|H].
      * by apply (link_refs_no_new_head c r).
      * revert H. apply IH. simpl in Hlen. lia.
Qed.

(** X27.  The rewriting of the links of a release note leaves no link
    target that starts with two hashes in the note, and leaves a note
    without such a link as it is. *)
Theorem link_refs_rewrites_every_link s :
  ¬ has_ref_link (Cmd.link_refs s)
  ∧ (¬ has_ref_link s → Cmd.link_refs s = s).
Proof.
  split; [apply (link_refs_leaves_none_upto (S (String.length s))); lia|].
  induction s as [|c r IH]; intros Hno; [done|].
  rewrite has_ref_link_cons in Hno.
  rewrite link_refs_other by tauto. rewrite IH; [done|tauto].
Qed.

Lemma link_refs_rewrites_every_link_witness :
  Cmd.link_refs "Fix a crash" = "Fix a crash".
Proof.
  apply (proj2 (link_refs_rewrites_every_link "Fix a crash")).
  intros (pre & post & H).
  repeat (destruct pre as [|? pre]; [discriminate|injection H as _ H]).
  destruct pre; discriminate.
Defined.

(** A note with two links, and the notes of a release. *)
Example link_refs_demo :
  Cmd.link_refs "See [`EditorView`](##view.EditorView) and [state](##state)."
  = "See [`EditorView`](https://codemirror.net/6/docs/ref/#view.EditorView) and [state](https://codemirror.net/6/docs/ref/#state).".
Proof. reflexivity. Qed.

Example releaseNotes_demo :
  Cmd.releaseNotes 2020 8 3
    {| Cmd.fix_ := ["Fix a crash"]; Cmd.feature := [];
       Cmd.breaking := ["Rename [x](##state.x)"] |}
    "0.12.0"
  = ("## 0.12.0 (2020-09-03)" +:+ nl +:+ nl,
     "### Breaking changes" +:+ nl +:+ nl
     +:+ "Rename [x](https://codemirror.net/6/docs/ref/#state.x)" +:+ nl +:+ nl
     +:+ "### Bug fixes" +:+ nl +:+ nl +:+ "Fix a crash" +:+ nl +:+ nl).
Proof. vm_compute. reflexivity. Qed.
